(** * 3D Hat Try-On: the frame-streaming and pose-application pipeline

    A shallow embedding of the client code of the repository:

    - [frontend/src/hooks/useWebSocket.js]: the connection manager
      (connect, disconnect, sendFrame and the four socket handlers);
    - [frontend/src/components/HatTryOn.jsx]: the orchestrator
      (processVideoFrame, the processing interval, the lastMessage effect);
    - [frontend/src/components/HatScene.jsx]: HatModel's per-frame mapping
      of the pose onto the Three.js group.

    JavaScript numbers are IEEE-754 binary64 values and are embedded as
    primitive floats; counters, delays and clock readings are integers.
    React state lives in records; refs are record fields that every closure
    reads live, while plain state variables are read through the closure
    that captured them. *)

From Stdlib Require Import ZArith Lia Bool String.
From Stdlib Require Import Floats.PrimFloat Floats.SpecFloat Floats.FloatOps
  Floats.FloatAxioms.
From stdpp Require Import base option list sorting.

Local Open Scope Z_scope.
Local Set Warnings "-inexact-float".

(** ** Wire data *)

(** A frame as it is handed to the socket: the bytes of the JPEG blob. *)
Definition Blob := list Byte.byte.

(** Three numbers: a [THREE.Vector3], or the three numbers of a line of the
    debug overlay. *)
Record Vec3 := mkVec3 { vx : float; vy : float; vz : float }.

(** What the client finds where it expects a number.  [JSON.parse] checks
    nothing, so the value is a number, [undefined] (the field is absent),
    [null], or something else: a string, a boolean, an array or an object,
    kept with the number that JavaScript's conversion to a number makes of
    it. *)
Inductive Value :=
| Num (x : float)
| Undefined
| Null
| Other (converted : float).

(** The value in arithmetic and in [Math.max]: [undefined] is [NaN] and
    [null] is [0]. *)
Definition toNumber (v : Value) : float :=
  match v with
  | Num x => x
  | Undefined => nan
  | Null => 0%float
  | Other converted => converted
  end.

(** [v.toFixed(2)]: the number that is printed, or nothing when the call
    throws a [TypeError], which it does on everything but a number
    ([undefined] and [null] have no properties, the other values have no
    [toFixed]). *)
Definition toFixed (v : Value) : option float :=
  match v with
  | Num x => Some x
  | _ => None
  end.

(** What reading [x], [y] and [z] gives on the [position] or the [rotation]
    of a hat.  On a string, a number, a boolean or an array the three reads
    give [undefined]. *)
Record Coords := mkCoords { cx : Value; cy : Value; cz : Value }.

(** The [hat] of a server message, as the reads of the client see it.
    [position] and [rotation] are [None] when they are absent or [null], so
    that reading a coordinate throws.  [modelType] is [None] when it is
    absent or is not a string: the [switch] compares it with strings only
    and such a value ends in its [default] case, like the name
    ['default']. *)
Record HatPose := mkHatPose {
  position : option Coords;
  rotation : option Coords;
  scale : Value;
  modelType : option string
}.

(** The fields of a server message that the client reads.  [face_detected]
    keeps the truthiness of the field, [None] when it is absent; [hat] is
    [None] when the field is absent or falsy. *)
Record PoseMessage := mkPoseMessage {
  face_detected : option bool;
  hat : option HatPose;
  msg_error : option string
}.

(** The value returned by [JSON.parse]: a falsy value ([null], [false], [0]
    or the empty string) or a value whose properties can be read.  A truthy
    value that is not an object has none of the three properties and is the
    message with every field absent. *)
Inductive Message :=
| Falsy
| Truthy (m : PoseMessage).

(** [event.data] as [JSON.parse] sees it: it throws, or it returns. *)
Inductive Payload :=
| Undecodable
| Decoded (m : Message).

(** ** useWebSocket *)

Module WS.

Inductive ReadyState := CONNECTING | OPEN | CLOSING | CLOSED.

Definition RECONNECT_DELAY : Z := 3000.
Definition MAX_RECONNECT_ATTEMPTS : nat := 5.

(** The four texts the hook stores with [setError]. *)
Inductive ErrorText :=
| ConnectionLost (delay : Z) (attempt : nat)
| BackendUnreachable
| ConnectionError
| CreateFailed.

(** React state and refs of the hook, followed by the part of the browser
    the hook acts on: the sockets it has constructed (a socket is named by
    its index), the timeouts that are pending, the [arrayBuffer()] promises
    that have not settled, and what has been passed to [ws.send] and
    [ws.close].  Timer handles are positive, as in a browser, so a handle
    stored in [reconnectTimeoutRef] is always truthy. *)
Record Hook := mkHook {
  isConnected : bool;
  isConnecting : bool;
  error : option ErrorText;
  lastMessage : Message;
  wsRef : option nat;
  reconnectTimeoutRef : option positive;
  reconnectAttemptsRef : nat;
  sockets : list ReadyState;
  timers : list (positive * Z);
  nextTimer : positive;
  conversions : list Blob;
  sent : list (nat * Blob);
  closed : list (nat * Z)
}.

Definition initial : Hook :=
  mkHook false false None Falsy None None 0 [] [] 1%positive [] [] [].

Definition setIsConnected (b : bool) (s : Hook) : Hook :=
  mkHook b (isConnecting s) (error s) (lastMessage s) (wsRef s)
    (reconnectTimeoutRef s) (reconnectAttemptsRef s) (sockets s) (timers s)
    (nextTimer s) (conversions s) (sent s) (closed s).

Definition setIsConnecting (b : bool) (s : Hook) : Hook :=
  mkHook (isConnected s) b (error s) (lastMessage s) (wsRef s)
    (reconnectTimeoutRef s) (reconnectAttemptsRef s) (sockets s) (timers s)
    (nextTimer s) (conversions s) (sent s) (closed s).

Definition setError (e : option ErrorText) (s : Hook) : Hook :=
  mkHook (isConnected s) (isConnecting s) e (lastMessage s) (wsRef s)
    (reconnectTimeoutRef s) (reconnectAttemptsRef s) (sockets s) (timers s)
    (nextTimer s) (conversions s) (sent s) (closed s).

Definition setLastMessage (m : Message) (s : Hook) : Hook :=
  mkHook (isConnected s) (isConnecting s) (error s) m (wsRef s)
    (reconnectTimeoutRef s) (reconnectAttemptsRef s) (sockets s) (timers s)
    (nextTimer s) (conversions s) (sent s) (closed s).

Definition setWsRef (r : option nat) (s : Hook) : Hook :=
  mkHook (isConnected s) (isConnecting s) (error s) (lastMessage s) r
    (reconnectTimeoutRef s) (reconnectAttemptsRef s) (sockets s) (timers s)
    (nextTimer s) (conversions s) (sent s) (closed s).

Definition setReconnectTimeoutRef (r : option positive) (s : Hook) : Hook :=
  mkHook (isConnected s) (isConnecting s) (error s) (lastMessage s) (wsRef s)
    r (reconnectAttemptsRef s) (sockets s) (timers s)
    (nextTimer s) (conversions s) (sent s) (closed s).

Definition setReconnectAttemptsRef (n : nat) (s : Hook) : Hook :=
  mkHook (isConnected s) (isConnecting s) (error s) (lastMessage s) (wsRef s)
    (reconnectTimeoutRef s) n (sockets s) (timers s)
    (nextTimer s) (conversions s) (sent s) (closed s).

Definition setSockets (l : list ReadyState) (s : Hook) : Hook :=
  mkHook (isConnected s) (isConnecting s) (error s) (lastMessage s) (wsRef s)
    (reconnectTimeoutRef s) (reconnectAttemptsRef s) l (timers s)
    (nextTimer s) (conversions s) (sent s) (closed s).

Definition setTimers (l : list (positive * Z)) (s : Hook) : Hook :=
  mkHook (isConnected s) (isConnecting s) (error s) (lastMessage s) (wsRef s)
    (reconnectTimeoutRef s) (reconnectAttemptsRef s) (sockets s) l
    (nextTimer s) (conversions s) (sent s) (closed s).

Definition setNextTimer (h : positive) (s : Hook) : Hook :=
  mkHook (isConnected s) (isConnecting s) (error s) (lastMessage s) (wsRef s)
    (reconnectTimeoutRef s) (reconnectAttemptsRef s) (sockets s) (timers s)
    h (conversions s) (sent s) (closed s).

Definition setConversions (l : list Blob) (s : Hook) : Hook :=
  mkHook (isConnected s) (isConnecting s) (error s) (lastMessage s) (wsRef s)
    (reconnectTimeoutRef s) (reconnectAttemptsRef s) (sockets s) (timers s)
    (nextTimer s) l (sent s) (closed s).

Definition setSent (l : list (nat * Blob)) (s : Hook) : Hook :=
  mkHook (isConnected s) (isConnecting s) (error s) (lastMessage s) (wsRef s)
    (reconnectTimeoutRef s) (reconnectAttemptsRef s) (sockets s) (timers s)
    (nextTimer s) (conversions s) l (closed s).

Definition setClosed (l : list (nat * Z)) (s : Hook) : Hook :=
  mkHook (isConnected s) (isConnecting s) (error s) (lastMessage s) (wsRef s)
    (reconnectTimeoutRef s) (reconnectAttemptsRef s) (sockets s) (timers s)
    (nextTimer s) (conversions s) (sent s) l.

(** [wsRef.current?.readyState === WebSocket.OPEN] *)
Definition wsOpen (s : Hook) : bool :=
  match wsRef s with
  | Some id =>
      match sockets s !! id with
      | Some OPEN => true
      | _ => false
      end
  | None => false
  end.

(** [setTimeout(callback, delay)]: a fresh handle, pending until it fires or
    is cleared. *)
Definition setTimeout (delay : Z) (s : Hook) : positive * Hook :=
  (nextTimer s,
   setNextTimer (Pos.succ (nextTimer s))
     (setTimers (timers s ++ [(nextTimer s, delay)]) s)).

Definition clearTimeout (h : positive) (s : Hook) : Hook :=
  setTimers (List.filter (fun t => negb (Pos.eqb (fst t) h)) (timers s)) s.

(** What [ws.close(code, reason)] does to the socket itself: a socket that
    has not closed yet starts closing. *)
Definition closing (r : ReadyState) : ReadyState :=
  match r with
  | CLOSED => CLOSED
  | _ => CLOSING
  end.

Definition wsClose (id : nat) (code : Z) (s : Hook) : Hook :=
  setClosed (closed s ++ [(id, code)])
    (setSockets (alter closing id (sockets s)) s).

Section Handlers.

(** Whether [new WebSocket(WEBSOCKET_URL)] throws in this page (the URL is a
    constant, so this is the same at every call). *)
Variable constructorThrows : bool.

Definition connect (s : Hook) : Hook :=
  if wsOpen s then s
  else
    let s := setError None (setIsConnecting true s) in
    if constructorThrows then
      setIsConnecting false (setError (Some CreateFailed) s)
    else
      setWsRef (Some (length (sockets s)))
        (setSockets (sockets s ++ [CONNECTING]) s).

Definition onopen (s : Hook) : Hook :=
  setReconnectAttemptsRef 0
    (setError None (setIsConnecting false (setIsConnected true s))).

Definition onmessage (data : Payload) (s : Hook) : Hook :=
  match data with
  | Decoded message => setLastMessage message s
  | Undecodable => s
  end.

Definition onclose (code : Z) (s : Hook) : Hook :=
  let s := setWsRef None (setIsConnecting false (setIsConnected false s)) in
  if negb (code =? 1000)
     && (reconnectAttemptsRef s <? MAX_RECONNECT_ATTEMPTS)%nat then
    let delay := RECONNECT_DELAY * 2 ^ Z.of_nat (reconnectAttemptsRef s) in
    let s := setError
               (Some (ConnectionLost delay (reconnectAttemptsRef s + 1))) s in
    let '(h, s) := setTimeout delay s in
    setReconnectTimeoutRef (Some h) s
  else if (MAX_RECONNECT_ATTEMPTS <=? reconnectAttemptsRef s)%nat then
    setError (Some BackendUnreachable) s
  else s.

Definition onerror (s : Hook) : Hook :=
  setIsConnecting false (setError (Some ConnectionError) s).

(** The callback that [onclose] hands to [setTimeout]. *)
Definition reconnect (s : Hook) : Hook :=
  connect (setReconnectAttemptsRef (reconnectAttemptsRef s + 1) s).

Definition disconnect (s : Hook) : Hook :=
  let s :=
    match reconnectTimeoutRef s with
    | Some h => setReconnectTimeoutRef None (clearTimeout h s)
    | None => s
    end in
  let s :=
    match wsRef s with
    | Some id => setWsRef None (wsClose id 1000 s)
    | None => s
    end in
  setReconnectAttemptsRef 0
    (setError None (setIsConnecting false (setIsConnected false s))).

(** [sendFrame] is rebuilt by [useCallback] when [isConnecting] changes; a
    caller that kept an earlier instance runs it with the [isConnecting] of
    the render it comes from, here [seenConnecting]. *)
Definition sendFrame (seenConnecting : bool) (imageData : Blob) (s : Hook)
  : Hook :=
  if wsOpen s then setConversions (conversions s ++ [imageData]) s
  else if negb seenConnecting then connect s
  else s.

(** The continuation of [imageData.arrayBuffer()]. *)
Definition bufferReady (buffer : Blob) (s : Hook) : Hook :=
  if wsOpen s then
    match wsRef s with
    | Some id => setSent (sent s ++ [(id, buffer)]) s
    | None => s
    end
  else s.

(** ** Events *)

(** Calls into the hook, socket events of the browser, the reconnect timer
    and the settling of a conversion.  A socket event names the socket it
    belongs to: the handlers are attached to the socket object and keep
    firing for it after [wsRef] has moved on. *)
Inductive Event :=
| Connect
| Disconnect
| SendFrame (seenConnecting : bool) (imageData : Blob)
| SockOpen (id : nat)
| SockMessage (id : nat) (data : Payload)
| SockError (id : nat)
| SockClosing (id : nat)
| SockClose (id : nat) (code : Z)
| TimerFire (h : positive)
| BufferReady (i : nat)
| BufferFailed (i : nat).

Definition pending (h : positive) (s : Hook) : bool :=
  existsb (fun t => Pos.eqb (fst t) h) (timers s).

(** One event; [None] when the browser cannot deliver it in this state.  A
    timer that fires is no longer pending when its callback runs. *)
Definition step (s : Hook) (e : Event) : option Hook :=
  match e with
  | Connect => Some (connect s)
  | Disconnect => Some (disconnect s)
  | SendFrame seen imageData => Some (sendFrame seen imageData s)
  | SockOpen id =>
      match sockets s !! id with
      | Some CONNECTING => Some (onopen (setSockets (<[id:=OPEN]> (sockets s)) s))
      | _ => None
      end
  | SockMessage id data =>
      match sockets s !! id with
      | Some OPEN | Some CLOSING => Some (onmessage data s)
      | _ => None
      end
  | SockError id =>
      match sockets s !! id with
      | Some CONNECTING | Some OPEN | Some CLOSING => Some (onerror s)
      | _ => None
      end
  | SockClosing id =>
      match sockets s !! id with
      | Some OPEN => Some (setSockets (<[id:=CLOSING]> (sockets s)) s)
      | _ => None
      end
  | SockClose id code =>
      match sockets s !! id with
      | Some CONNECTING | Some OPEN | Some CLOSING =>
          Some (onclose code (setSockets (<[id:=CLOSED]> (sockets s)) s))
      | _ => None
      end
  | TimerFire h =>
      if pending h s then Some (reconnect (clearTimeout h s)) else None
  | BufferReady i =>
      match conversions s !! i with
      | Some buffer =>
          Some (bufferReady buffer (setConversions (delete i (conversions s)) s))
      | None => None
      end
  | BufferFailed i =>
      match conversions s !! i with
      | Some _ => Some (setConversions (delete i (conversions s)) s)
      | None => None
      end
  end.

Fixpoint run (s : Hook) (es : list Event) : option Hook :=
  match es with
  | [] => Some s
  | e :: es =>
      match step s e with
      | Some s' => run s' es
      | None => None
      end
  end.



(** The timeout that a handler has just requested, if it requested one:
    handles are handed out in order, so a request shows in [nextTimer]. *)
Definition scheduled (before after : Hook) : option (positive * Z) :=
  if Pos.eqb (nextTimer before) (nextTimer after) then None
  else last (timers after).

(** A connection that keeps failing: the current socket closes with the
    first code; if a reconnect was scheduled its timer fires and the socket
    that [connect] makes closes with the next code, and so on.  The result
    lists, close by close, the delay that was scheduled ([None]: no retry);
    the run ends when there is no socket left to close. *)
Fixpoint failing (s : Hook) (codes : list Z) : list (option Z) :=
  match codes, wsRef s with
  | code :: codes, Some id =>
      match step s (SockClose id code) with
      | Some s1 =>
          match scheduled s s1 with
          | Some (h, delay) =>
              Some delay ::
              match step s1 (TimerFire h) with
              | Some s2 => failing s2 codes
              | None => []
              end
          | None => [None]
          end
      | None => []
      end
  | _, _ => []
  end.

(** Calls and events that cannot start a connection attempt or report an
    abnormal close: everything but [connect()], a [sendFrame] that was built
    while [isConnecting] was false, and a close event with a code other
    than 1000. *)
Definition quiet (e : Event) : bool :=
  match e with
  | Connect => false
  | SendFrame seenConnecting _ => seenConnecting
  | SockClose _ code => code =? 1000
  | _ => true
  end.

End Handlers.

End WS.

(** ** FrameRateLimiter *)

Module Limiter.

(** Modelled from the spec: the class FrameRateLimiter of
    [frontend/src/lib/frameCapture.js], which HatTryOn constructs with
    [new FrameRateLimiter(20)] and asks [shouldProcessFrame()], is not among
    the sources.  The spec gives its rule: a tick is allowed when the time
    elapsed since the last allowed tick is at least [1 / targetRate]
    seconds.  Clock readings are in milliseconds, so the test
    [elapsed >= 1000 / targetRate] is written without the division. *)
Record FrameRateLimiter := mkLimiter {
  targetRate : Z;
  lastAllowed : option Z
}.

(** Modelled from the spec: the constructor of the absent class, called
    with the target rate in samples per second; no tick has been allowed
    yet. *)
Definition create (rate : Z) : FrameRateLimiter := mkLimiter rate None.

(** Modelled from the spec: the rule of the absent [shouldProcessFrame],
    "elapsed time since the last allowed tick >= 1 / targetRate". *)
Definition elapsedEnough (now : Z) (l : FrameRateLimiter) : bool :=
  match lastAllowed l with
  | Some t => 1000 <=? (now - t) * targetRate l
  | None => true
  end.

(** Two clock readings at least [1 / rate] seconds apart. *)
Definition apart (rate : Z) (x y : Z) : Prop := 1000 <= (y - x) * rate.

(** Modelled from the spec: the absent [shouldProcessFrame()], at clock
    reading [now]; an allowed tick becomes the last allowed tick. *)
Definition shouldProcessFrame (now : Z) (l : FrameRateLimiter)
  : bool * FrameRateLimiter :=
  if elapsedEnough now l then (true, mkLimiter (targetRate l) (Some now))
  else (false, l).

End Limiter.

(** ** HatTryOn *)

Module App.

(** What the interval callback sees of the component's state.  Every render
    makes a new [processVideoFrame] over that render's [isStreaming],
    [isConnected], [isProcessing] and [sendFrame]; [setInterval] is given
    the one of the render in which the interval effect ran, and the effect
    runs again only when [isStreaming] or [isConnected] changes.  So the
    callback keeps reading the three state variables, and the
    [isConnecting] inside its [sendFrame], as they were in that render;
    [setIsProcessing] changes the state but not what the callback reads. *)
Record Closure := mkClosure {
  seenStreaming : bool;
  seenConnected : bool;
  seenProcessing : bool;
  seenConnecting : bool
}.

(** Modelled from the spec: [captureFrameAsBlob] of
    [frontend/src/lib/frameCapture.js] is not among the sources.  The spec
    has the sampler return a frame or nothing; the caller also handles a
    rejection.  This is what [await captureFrameAsBlob(...)] settles
    with. *)
Inductive Capture :=
| Frame (blob : Blob)
| NoFrame
| CaptureError.

(** The component: the hook it uses, the camera flags of useWebcam, its own
    state and refs, the interval that is installed, and the invocations of
    [processVideoFrame] that are suspended at the [await] (each with the
    closure it runs in). *)
Record State := mkState {
  ws : WS.Hook;
  isStreaming : bool;
  videoRef : bool;
  isProcessing : bool;
  hatPose : option HatPose;
  faceDetected : bool;
  frameRateLimiter : Limiter.FrameRateLimiter;
  recordedFrames : nat;
  interval : option Closure;
  capturing : list Closure
}.

Definition initial : State :=
  mkState WS.initial false true false None false (Limiter.create 20) 0
    None [].

Definition setWs (h : WS.Hook) (s : State) : State :=
  mkState h (isStreaming s) (videoRef s) (isProcessing s) (hatPose s)
    (faceDetected s) (frameRateLimiter s) (recordedFrames s) (interval s)
    (capturing s).

Definition setIsStreaming (b : bool) (s : State) : State :=
  mkState (ws s) b (videoRef s) (isProcessing s) (hatPose s)
    (faceDetected s) (frameRateLimiter s) (recordedFrames s) (interval s)
    (capturing s).

Definition setIsProcessing (b : bool) (s : State) : State :=
  mkState (ws s) (isStreaming s) (videoRef s) b (hatPose s)
    (faceDetected s) (frameRateLimiter s) (recordedFrames s) (interval s)
    (capturing s).

Definition setHatPose (p : option HatPose) (s : State) : State :=
  mkState (ws s) (isStreaming s) (videoRef s) (isProcessing s) p
    (faceDetected s) (frameRateLimiter s) (recordedFrames s) (interval s)
    (capturing s).

Definition setFaceDetected (b : bool) (s : State) : State :=
  mkState (ws s) (isStreaming s) (videoRef s) (isProcessing s) (hatPose s)
    b (frameRateLimiter s) (recordedFrames s) (interval s)
    (capturing s).

Definition setFrameRateLimiter (l : Limiter.FrameRateLimiter) (s : State)
  : State :=
  mkState (ws s) (isStreaming s) (videoRef s) (isProcessing s) (hatPose s)
    (faceDetected s) l (recordedFrames s) (interval s)
    (capturing s).

Definition recordFrame (s : State) : State :=
  mkState (ws s) (isStreaming s) (videoRef s) (isProcessing s) (hatPose s)
    (faceDetected s) (frameRateLimiter s) (S (recordedFrames s)) (interval s)
    (capturing s).

Definition setInterval (i : option Closure) (s : State) : State :=
  mkState (ws s) (isStreaming s) (videoRef s) (isProcessing s) (hatPose s)
    (faceDetected s) (frameRateLimiter s) (recordedFrames s) i
    (capturing s).

Definition setCapturing (l : list Closure) (s : State) : State :=
  mkState (ws s) (isStreaming s) (videoRef s) (isProcessing s) (hatPose s)
    (faceDetected s) (frameRateLimiter s) (recordedFrames s) (interval s)
    l.

Section Component.

Variable constructorThrows : bool.

(** The guard of [processVideoFrame], read in the closure [c]; [videoRef]
    is a ref and is read live. *)
Definition ready (c : Closure) (s : State) : bool :=
  videoRef s && seenStreaming c && seenConnected c && negb (seenProcessing c).

(** Whether the invocation at clock reading [now] gets past both returns. *)
Definition accepts (c : Closure) (now : Z) (s : State) : bool :=
  ready c s && Limiter.elapsedEnough now (frameRateLimiter s).

(** [processVideoFrame] up to the [await]. *)
Definition processVideoFrame (c : Closure) (now : Z) (s : State) : State :=
  if negb (ready c s) then s
  else
    let '(ok, l) := Limiter.shouldProcessFrame now (frameRateLimiter s) in
    let s := setFrameRateLimiter l s in
    if negb ok then s
    else setCapturing (capturing s ++ [c])
           (recordFrame (setIsProcessing true s)).

(** [processVideoFrame] from the [await] on: the [try] body, [catch] and
    [finally]. *)
Definition resume (c : Closure) (r : Capture) (s : State) : State :=
  let s :=
    match r with
    | Frame frameBlob =>
        setWs (WS.sendFrame constructorThrows (seenConnecting c) frameBlob
                 (ws s)) s
    | NoFrame => s
    | CaptureError => s
    end in
  setIsProcessing false s.

(** The effect on [lastMessage].  [faceDetected] holds the truthiness of
    the value the source stores. *)
Definition onLastMessage (lastMessage : Message) (s : State) : State :=
  match lastMessage with
  | Truthy m =>
      let s := setFaceDetected (default false (face_detected m)) s in
      match face_detected m, hat m with
      | Some true, Some h => setHatPose (Some h) s
      | _, _ => setHatPose None s
      end
  | Falsy => s
  end.

(** The effect that owns the interval.  Its dependencies are [isStreaming]
    and [isConnected]; when one of them has changed, the cleanup clears the
    old interval and a new one is installed if both hold, with the closure
    of the current render. *)
Definition closureOf (s : State) : Closure :=
  mkClosure (isStreaming s) (WS.isConnected (ws s)) (isProcessing s)
    (WS.isConnecting (ws s)).

Definition intervalEffect (before s : State) : State :=
  if bool_decide (isStreaming before = isStreaming s)
     && bool_decide (WS.isConnected (ws before) = WS.isConnected (ws s))
  then s
  else if isStreaming s && WS.isConnected (ws s)
       then setInterval (Some (closureOf s)) s
       else setInterval None s.

(** Events of the component: calls and browser events of the hook (the
    component calls [sendFrame] itself, so that one is not an event here),
    the camera starting and stopping, a tick of the interval and the
    settling of a capture. *)
Inductive Event :=
| Ws (e : WS.Event)
| CameraStarted
| CameraStopped
| Tick (now : Z)
| Captured (i : nat) (r : Capture).

Definition handle (s : State) (e : Event) : option State :=
  match e with
  | Ws (WS.SendFrame _ _) => None
  | Ws (WS.SockMessage id data) =>
      match WS.step constructorThrows (ws s) (WS.SockMessage id data) with
      | Some h =>
          match data with
          | Decoded m => Some (onLastMessage m (setWs h s))
          | Undecodable => Some (setWs h s)
          end
      | None => None
      end
  | Ws e =>
      match WS.step constructorThrows (ws s) e with
      | Some h => Some (setWs h s)
      | None => None
      end
  | CameraStarted => Some (setIsStreaming true s)
  | CameraStopped => Some (setIsStreaming false s)
  | Tick now =>
      match interval s with
      | Some c => Some (processVideoFrame c now s)
      | None => None
      end
  | Captured i r =>
      match capturing s !! i with
      | Some c => Some (resume c r (setCapturing (delete i (capturing s)) s))
      | None => None
      end
  end.

(** One event followed by the render it causes, effects included: the
    next event finds the component settled. *)
Definition step (s : State) (e : Event) : option State :=
  match handle s e with
  | Some s' => Some (intervalEffect s s')
  | None => None
  end.

Fixpoint run (s : State) (es : list Event) : option State :=
  match es with
  | [] => Some s
  | e :: es =>
      match step s e with
      | Some s' => run s' es
      | None => None
      end
  end.

(** Whether the event is a tick that starts a sample/send cycle. *)
Definition accepted (s : State) (e : Event) : bool :=
  match e, interval s with
  | Tick now, Some c => accepts c now s
  | _, _ => false
  end.

(** The clock readings of the accepted ticks of a run, in order. *)
Fixpoint acceptedTicks (s : State) (es : list Event) : list Z :=
  match es with
  | [] => []
  | e :: es =>
      match step s e with
      | Some s' =>
          match e with
          | Tick now => if accepted s e then now :: acceptedTicks s' es
                        else acceptedTicks s' es
          | _ => acceptedTicks s' es
          end
      | None => []
      end
  end.

(** The closure of the installed interval agrees with the current render on
    the two dependencies of the effect. *)
Definition fresh (s : State) : Prop :=
  forall c, interval s = Some c ->
    seenStreaming c = isStreaming s /\ seenConnected c = WS.isConnected (ws s).

(** The pose and the flag handed to the scene are the ones the
    [lastMessage] effect derives from the latest message that has
    properties. *)
Definition follows (s : State) : Prop :=
  match WS.lastMessage (ws s) with
  | Truthy m =>
      faceDetected s = default false (face_detected m)
      /\ hatPose s = match face_detected m, hat m with
                     | Some true, Some h => Some h
                     | _, _ => None
                     end
  | Falsy => True
  end.

(** The ticks that fall in the second that starts at [t]. *)
Definition during (t : Z) (ticks : list Z) : list Z :=
  List.filter (fun x => (t <=? x) && (x <? t + 1000)) ticks.

(** Whether the event delivers a message that [JSON.parse] accepts. *)
Definition deliversMessage (e : Event) : bool :=
  match e with
  | Ws (WS.SockMessage _ (Decoded _)) => true
  | _ => false
  end.

End Component.

End App.

(** ** HatModel *)

Module Scene.

Local Open Scope float_scope.

(** What the group can hold: the hat (the GLB clone or the procedural
    fallback) and the debug wireframe that the JSX mounts. *)
Inductive Model := GLBHat | FallbackHat.

Inductive Child :=
| HatObject (m : Model)
| DebugBox.

(** The fields of the Three.js group that [useFrame] writes.  A new
    [Object3D] is visible, with no children, at the origin. *)
Record Object3D := mkObject3D {
  objPosition : Vec3;
  objRotation : Vec3;
  objScale : Vec3;
  visible : bool;
  children : list Child
}.

Definition newGroup : Object3D :=
  mkObject3D (mkVec3 0 0 0) (mkVec3 0 0 0) (mkVec3 1 1 1) true [].

(** An offset/scale preset: the two numbers each branch of the source
    assigns to [yOffset] and to the factor of [hatPose.scale]. *)
Record Preset := mkPreset { yOffset : float; scaleMultiplier : float }.

(** [hatPose.modelType || 'default'] *)
Definition modelTypeOf (hatPose : HatPose) : string :=
  match modelType hatPose with
  | Some EmptyString => "default"
  | Some t => t
  | None => "default"
  end.

(** The [if (isGLBModel)] with its [switch], as the table it encodes. *)
Definition preset (isGLBModel : bool) (type : string) : Preset :=
  if isGLBModel then
    if String.eqb type "large_hat" then mkPreset (-1.0) 0.8
    else if String.eqb type "small_hat" then mkPreset (-0.2) 0.02
    else mkPreset (-0.2) 0.5
  else mkPreset (-0.3) 0.25.

(** [Math.max(z, 0)] on the number that [z] converts to: [NaN] if it is
    [NaN], else the larger one, with [+0] for [-0]. *)
Definition Math_max0 (z : float) : float :=
  if is_nan z then nan
  else if ltb 0 z then z
  else 0.

(** How one invocation of the [useFrame] callback ends: it returns, leaving
    the group (if there is one) in some state, or a property read on
    [undefined] throws after the writes that came before it. *)
Inductive Completion :=
| Returned (group : option Object3D)
| TypeError (group : Object3D).

(** Whether a call returned. *)
Definition is_Some_bool {A : Type} (o : option A) : bool :=
  match o with
  | Some _ => true
  | None => false
  end.

(** The [useFrame] callback.  [meshRef] is the group behind the ref, [model]
    the hat that has been built, [gltf] whether [gltf && gltf.scene] holds,
    [logs] whether [Math.random() < 0.1] holds in this invocation: the
    logging branch of either kind of model then prints [z.toFixed(2)], on
    the [z] of the message as it came. *)
Definition useFrame (meshRef : option Object3D) (hatPose : option HatPose)
    (isVisible : bool) (model : option Model) (gltf : bool) (logs : bool)
  : Completion :=
  match meshRef, hatPose, isVisible, model with
  | Some group, Some pose, true, Some m =>
      let group := mkObject3D (objPosition group) (objRotation group)
                     (objScale group) (visible group) [HatObject m] in
      match position pose with
      | None => TypeError group
      | Some p =>
          let x := (toNumber (cx p) - 0.5) * 4 in
          let y := (toNumber (cy p) - 0.5) * 3 in
          let z := cz p in
          let isGLBModel := gltf in
          let type := modelTypeOf pose in
          let yOffset := yOffset (preset isGLBModel type) in
          let scale := toNumber (scale pose)
                       * scaleMultiplier (preset isGLBModel type) in
          if logs && negb (is_Some_bool (toFixed z)) then TypeError group
          else
            let zPosition := Math_max0 (toNumber z) in
            let group := mkObject3D (mkVec3 x (y + yOffset) zPosition)
                           (objRotation group) (objScale group)
                           (visible group) (children group) in
            match rotation pose with
            | None => TypeError group
            | Some r =>
                Returned (Some
                  (mkObject3D (objPosition group)
                     (mkVec3 (toNumber (cx r) * 0.8)
                        (toNumber (cy r) * 0.8)
                        (toNumber (cz r) * 0.8))
                     (mkVec3 scale scale scale)
                     true
                     (children group)))
            end
      end
  | _, _, _, _ => Returned meshRef
  end.

(** HatScene passes [faceDetected] as [visible] and [hatPose] unchanged, so
    a frame that follows a render of the component is this. *)
Definition renderFrame (s : App.State) (meshRef : option Object3D)
    (model : option Model) (gltf : bool) (logs : bool) : Completion :=
  useFrame meshRef (App.hatPose s) (App.faceDetected s) model gltf logs.

(** Whether the renderer draws a hat for the group: the group is visible
    and holds a hat model. *)
Definition drawsHat (group : Object3D) : bool :=
  visible group
  && existsb (fun c => match c with HatObject _ => true | DebugBox => false end)
       (children group).

End Scene.

(** ** Concrete runs *)

Module Runs.

Import WS.

(** Two frames: the first bytes of two JPEG files. *)
Definition frame1 : Blob := [Byte.xff; Byte.xd8; Byte.xff; Byte.xe0].
Definition frame2 : Blob := [Byte.xff; Byte.xd8; Byte.xff; Byte.xe1].

(** The hook once its first socket has opened. *)
Definition opening : list Event := [Connect; SockOpen 0].

Definition opened : Hook :=
  mkHook true false None Falsy (Some 0%nat) None 0 [OPEN] [] 1%positive
    [] [] [].

(** The connection has dropped and the first reconnect is scheduled. *)
Definition dropping : list Event := opening ++ [SockClose 0 1006].

Definition dropped : Hook :=
  mkHook false false (Some (ConnectionLost 3000 1)) Falsy None
    (Some 1%positive) 0 [CLOSED] [(1%positive, 3000)] 2%positive [] [] [].

(** The connection has dropped and all five reconnects have failed. *)
Definition exhausting : list Event :=
  dropping
  ++ [TimerFire 1; SockClose 1 1006; TimerFire 2; SockClose 2 1006;
      TimerFire 3; SockClose 3 1006; TimerFire 4; SockClose 4 1006;
      TimerFire 5; SockClose 5 1006].

Definition exhausted : Hook :=
  mkHook false false (Some BackendUnreachable) Falsy None
    (Some 5%positive) 5 [CLOSED; CLOSED; CLOSED; CLOSED; CLOSED; CLOSED] []
    6%positive [] [] [].

(** The component with the camera streaming and the socket open, so that
    the interval is installed. *)
Definition starting : list App.Event :=
  [App.Ws Connect; App.CameraStarted; App.Ws (SockOpen 0)].

Definition sampling : App.State :=
  App.mkState opened true true false None false (Limiter.create 20) 0
    (Some (App.mkClosure true true false false)) [].

(** The first tick has been accepted and its capture has not settled. *)
Definition capturing1 : App.State :=
  App.mkState opened true true true None false
    (Limiter.mkLimiter 20 (Some 1000)) 1
    (Some (App.mkClosure true true false false))
    [App.mkClosure true true false false].

(** The first frame has been handed to [sendFrame] and is being converted. *)
Definition converting1 : App.State :=
  App.mkState
    (mkHook true false None Falsy (Some 0%nat) None 0 [OPEN] [] 1%positive
       [frame1] [] [])
    true true false None false (Limiter.mkLimiter 20 (Some 1000)) 1
    (Some (App.mkClosure true true false false)) [].

(** The message of the spec's example, and a message with no field. *)
Definition examplePose : HatPose :=
  mkHatPose (Some (mkCoords (Num 0.5) (Num 0.5) (Num 0.05)))
    (Some (mkCoords (Num 0) (Num 0) (Num 0))) (Num 1) None.

Definition exampleMessage : PoseMessage :=
  mkPoseMessage (Some true) (Some examplePose) None.

(** A message that reports no face, and one whose hat lacks its
    [rotation]. *)
Definition noFaceMessage : PoseMessage := mkPoseMessage (Some false) None None.



(** The component showing the hat of the example message. *)
Definition showing : App.State :=
  App.mkState
    (mkHook true false None (Truthy exampleMessage) (Some 0%nat) None 0
       [OPEN] [] 1%positive [] [] [])
    false true false (Some examplePose) true (Limiter.create 20) 0 None [].

(** The group once a frame has applied the example pose to the GLB
    model. *)
Definition posed : Scene.Object3D :=
  Scene.mkObject3D (mkVec3 0 (-0.2) 0.05) (mkVec3 0 0 0) (mkVec3 0.5 0.5 0.5)
    true [Scene.HatObject Scene.GLBHat].

(** The component after the message that reports no face has followed the
    example message. *)
Definition hidden : App.State :=
  App.mkState
    (mkHook true false None (Truthy noFaceMessage) (Some 0%nat) None 0
       [OPEN] [] 1%positive [] [] [])
    false true false None false (Limiter.create 20) 0 None [].



End Runs.

(** ** HatTryOn: the status line and the connection button *)

Module UI.

(** The three objects [getConnectionStatus] returns, by their text:
    Connecting, Connected and Disconnected. *)
Inductive ConnectionStatus := Connecting | Connected | Disconnected.

Definition getConnectionStatus (s : WS.Hook) : ConnectionStatus :=
  if WS.isConnecting s then Connecting
  else if WS.isConnected s then Connected
  else Disconnected.

(** The connection button: disabled while connecting, otherwise its click
    calls [disconnectWS] or [connectWS]. *)
Definition connectionButton (s : WS.Hook) : option WS.Event :=
  if WS.isConnecting s then None
  else Some (if WS.isConnected s then WS.Disconnect else WS.Connect).

End UI.

(** ** Measures of a list of events *)

Module Trace.

(** The number of calls of [sendFrame]. *)
Definition handedOver (es : list WS.Event) : nat :=
  length
    (List.filter
       (fun e => match e with WS.SendFrame _ _ => true | _ => false end) es).

(** The message of the last event that delivers decodable data; [m] if
    there is none. *)
Fixpoint latest (es : list WS.Event) (m : Message) : Message :=
  match es with
  | [] => m
  | WS.SockMessage _ (Decoded m') :: es => latest es m'
  | _ :: es => latest es m
  end.

End Trace.

(** ** Invariants of the hook and of the component *)

Module Keeps.

(** The text in [error] is one that [onclose] writes: a reconnect notice
    carries the number of an attempt within the cap and the delay of that
    attempt, and the final notice stands only with the counter at the
    cap. *)
Definition errorConsistent (s : WS.Hook) : Prop :=
  match WS.error s with
  | Some (WS.ConnectionLost delay attempt) =>
      (1 <= attempt <= WS.MAX_RECONNECT_ATTEMPTS)%nat
      /\ delay = WS.RECONNECT_DELAY * 2 ^ Z.of_nat (attempt - 1)
  | Some WS.BackendUnreachable =>
      (WS.MAX_RECONNECT_ATTEMPTS <= WS.reconnectAttemptsRef s)%nat
  | _ => True
  end.

(** Every pending reconnect waits one of the five delays. *)
Definition delaysBounded (s : WS.Hook) : Prop :=
  Forall (fun t => exists k : nat,
            (k < WS.MAX_RECONNECT_ATTEMPTS)%nat
            /\ snd t = WS.RECONNECT_DELAY * 2 ^ Z.of_nat k)
    (WS.timers s).

(** While the socket behind [wsRef] is open the hook reports it. *)
Definition openReported (s : WS.Hook) : Prop :=
  WS.wsOpen s = true ->
  WS.isConnected s = true /\ WS.isConnecting s = false.

(** The interval is installed exactly while both dependencies hold. *)
Definition installed (s : App.State) : Prop :=
  is_Some (App.interval s)
  <-> App.isStreaming s = true /\ WS.isConnected (App.ws s) = true.

(** A pose is handed to the scene only together with the face flag. *)
Definition poseWithFace (s : App.State) : Prop :=
  is_Some (App.hatPose s) -> App.faceDetected s = true.

(** With no capture pending, [isProcessing] is clear. *)
Definition clearWhenIdle (s : App.State) : Prop :=
  App.capturing s = [] -> App.isProcessing s = false.

End Keeps.

(** ** HatScene: building the model and the debug overlay *)

Module Loading.

(** [modelStatus]: ['loading'], ['glb-loaded'] or ['fallback-loaded']. *)
Inductive ModelStatus := StatusLoading | GlbLoaded | FallbackLoaded.

(** What [useGLTF('/models/hat.glb')] gives a render: a falsy value, or an
    object whose [scene] is truthy or not; the same at every render. *)
Inductive GLTF := NoGLTF | WithoutScene | WithScene.

(** The state of HatModel, the status that HatModelWithStatus keeps and
    passes on, and the number of calls of [onModelLoad] so far. *)
Record Loader := mkLoader {
  useGLB : bool;
  modelLoaded : bool;
  model : option Scene.Model;
  modelStatus : ModelStatus;
  notified : nat
}.

Definition initial : Loader := mkLoader true false None StatusLoading 0.

(** [useGLB ? useGLTF(...) : null] *)
Definition gltfOf (loaded : GLTF) (s : Loader) : GLTF :=
  if useGLB s then loaded else NoGLTF.

(** [gltf && gltf.scene], the test of the effect and of [useFrame]. *)
Definition isGLBModel (loaded : GLTF) (s : Loader) : bool :=
  match gltfOf loaded s with
  | WithScene => true
  | _ => false
  end.

(** [onModelLoad] as HatModelWithStatus defines it. *)
Definition onModelLoad (isGLB : bool) (s : Loader) : Loader :=
  mkLoader (useGLB s) (modelLoaded s) (model s)
    (if isGLB then GlbLoaded else FallbackLoaded) (S (notified s)).

(** The effect of HatModel that builds the model. *)
Definition loadEffect (loaded : GLTF) (s : Loader) : Loader :=
  if modelLoaded s then s
  else if isGLBModel loaded s then
    onModelLoad true
      (mkLoader (useGLB s) true (Some Scene.GLBHat) (modelStatus s)
         (notified s))
  else if useGLB s
          && match gltfOf loaded s with NoGLTF => true | _ => false end then
    mkLoader false (modelLoaded s) (model s) (modelStatus s) (notified s)
  else if negb (useGLB s) && negb (modelLoaded s) then
    onModelLoad false
      (mkLoader (useGLB s) true (Some Scene.FallbackHat) (modelStatus s)
         (notified s))
  else s.

(** The effect run [n] times, once per render. *)
Fixpoint renders (loaded : GLTF) (n : nat) (s : Loader) : Loader :=
  match n with
  | O => s
  | S n => renders loaded n (loadEffect loaded s)
  end.

(** The lines of the debug overlay: the face flag, the model status and,
    when there is a pose, the numbers that [toFixed(2)] prints. *)
Record DebugInfo := mkDebugInfo {
  faceLine : bool;
  modelLine : ModelStatus;
  poseLines : option (Vec3 * Vec3 * float)
}.

(** How a render ends: with its output, or with the [TypeError] of a
    property read on [undefined]. *)
Inductive Render :=
| Shown (info : DebugInfo)
| RenderError.

(** The three numbers of a line of the overlay, when all three calls of
    [toFixed] return. *)
Definition fixedCoords (v : option Coords) : option Vec3 :=
  match v with
  | Some c =>
      match toFixed (cx c), toFixed (cy c), toFixed (cz c) with
      | Some x, Some y, Some z => Some (mkVec3 x y z)
      | _, _, _ => None
      end
  | None => None
  end.

(** The debug overlay of HatScene. *)
Definition debugInfo (faceDetected : bool) (status : ModelStatus)
    (hatPose : option HatPose) : Render :=
  match hatPose with
  | None => Shown (mkDebugInfo faceDetected status None)
  | Some pose =>
      match fixedCoords (position pose), fixedCoords (rotation pose),
            toFixed (scale pose) with
      | Some p, Some r, Some k =>
          Shown (mkDebugInfo faceDetected status (Some (p, r, k)))
      | _, _, _ => RenderError
      end
  end.

(** A [hat] as the wire protocol describes it: a position and a rotation of
    three numbers each, and a number as scale. *)
Definition wellFormed (pose : HatPose) : Prop :=
  exists x y z a b c k : float,
    position pose = Some (mkCoords (Num x) (Num y) (Num z))
    /\ rotation pose = Some (mkCoords (Num a) (Num b) (Num c))
    /\ scale pose = Num k.

End Loading.

(** ** useWebcam *)

Module Webcam.

(** What a rejected [getUserMedia] or [play] throws: a [DOMException] with
    its name and message, or anything else. *)
Inductive Thrown :=
| DOMException (name message : string)
| OtherError.

(** The text the [catch] of [startCamera] stores for it. *)
Definition cameraError (e : Thrown) : string :=
  match e with
  | DOMException name message =>
      if String.eqb name "NotFoundError" then
        "No camera found on your device"%string
      else if String.eqb name "NotAllowedError" then
        "Camera access denied. Please allow camera permissions and refresh."%string
      else if String.eqb name "NotReadableError" then
        "Camera is already in use by another application"%string
      else if String.eqb name "OverconstrainedError" then
        "Camera does not support the required constraints"%string
      else ("Failed to access camera: " ++ message)%string
  | OtherError =>
      "An unexpected error occurred while accessing the camera"%string
  end.

(** The state of the hook, the video element behind [videoRef] (whether it
    is attached, and its [srcObject]) and the media streams whose tracks
    are running; a stream is named by a number. *)
Record Camera := mkCamera {
  stream : option nat;
  isLoading : bool;
  error : option string;
  isStreaming : bool;
  video : bool;
  srcObject : option nat;
  running : list nat
}.

Definition initial : Camera := mkCamera None false None false true None [].

(** [startCamera], for a run in which its awaits settle: [media] is what
    [getUserMedia] settles with (a new stream, its tracks running) and
    [played] what [play()] rejects with, if it does. *)
Definition startCamera (media : Thrown + nat) (played : option Thrown)
    (s : Camera) : Camera :=
  let failed (e : Thrown) (s : Camera) :=
    mkCamera (stream s) false (Some (cameraError e)) (isStreaming s)
      (video s) (srcObject s) (running s) in
  match media with
  | inr mediaStream =>
      let s := mkCamera (Some mediaStream) true None (isStreaming s)
                 (video s) (srcObject s) (mediaStream :: running s) in
      if video s then
        let s := mkCamera (stream s) (isLoading s) (error s) (isStreaming s)
                   (video s) (Some mediaStream) (running s) in
        match played with
        | None =>
            mkCamera (stream s) false (error s) true (video s) (srcObject s)
              (running s)
        | Some e => failed e s
        end
      else
        mkCamera (stream s) false (error s) (isStreaming s) (video s)
          (srcObject s) (running s)
  | inl e => failed e s
  end.

(** [stopCamera] with the [stream] that the closure running it sees. *)
Definition stopCamera (seenStream : option nat) (s : Camera) : Camera :=
  let s :=
    match seenStream with
    | Some st =>
        mkCamera None (isLoading s) (error s) (isStreaming s) (video s)
          (srcObject s)
          (List.filter (fun x => negb (Nat.eqb x st)) (running s))
    | None => s
    end in
  mkCamera (stream s) (isLoading s) None false (video s)
    (if video s then None else srcObject s) (running s).

(** The cleanup of the effect without dependencies: it runs the
    [stopCamera] of the first render, whose [stream] is [null], after React
    has detached the ref of the video element. *)
Definition unmount (s : Camera) : Camera :=
  stopCamera None
    (mkCamera (stream s) (isLoading s) (error s) (isStreaming s) false
       (srcObject s) (running s)).

(** The camera button ([isStreaming ? stopCamera : startCamera], of the
    current render) and React. *)
Inductive Event :=
| Start (media : Thrown + nat) (played : option Thrown)
| Stop
| Unmount.

Definition step (s : Camera) (e : Event) : Camera :=
  match e with
  | Start media played => startCamera media played s
  | Stop => stopCamera (stream s) s
  | Unmount => unmount s
  end.

Definition run (s : Camera) (es : list Event) : Camera :=
  fold_left step es s.

(** The streams that a list of events acquires. *)
Fixpoint acquired (es : list Event) : list nat :=
  match es with
  | Start (inr st) _ :: es => st :: acquired es
  | _ :: es => acquired es
  | [] => []
  end.

Definition stops (e : Event) : bool :=
  match e with
  | Stop => true
  | _ => false
  end.

(** While streaming, the video element is attached and the stream is
    recorded, attached to it and running. *)
Definition streamingSound (s : Camera) : Prop :=
  isStreaming s = true ->
  video s = true
  /\ exists st,
       stream s = Some st /\ srcObject s = Some st /\ In st (running s).

End Webcam.

(** ** More concrete runs *)

Module MoreRuns.

Import WS.

(** Two calls of [connect()] while the first socket was still connecting;
    the second socket has opened. *)
Definition replacing : list Event := [Connect; Connect; SockOpen 1].

Definition replaced : Hook :=
  mkHook true false None Falsy (Some 1%nat) None 0 [CONNECTING; OPEN] []
    1%positive [] [] [].

(** The camera after a start with stream 3 whose [play()] was refused. *)
Definition refused : Webcam.Camera :=
  Webcam.run Webcam.initial
    [Webcam.Start (inr 3%nat)
       (Some (Webcam.DOMException "NotAllowedError" "denied"))].

(** The camera after a successful start with stream 7. *)
Definition filming : Webcam.Camera :=
  Webcam.mkCamera (Some 7%nat) false None true true (Some 7%nat) [7%nat].

End MoreRuns.

(** * Properties *)

(** ** The connection manager *)

Section ConnectionManager.

Import WS.

Variable constructorThrows : bool.

Local Abbreviation connect := (WS.connect constructorThrows).
Local Abbreviation reconnect := (WS.reconnect constructorThrows).
Local Abbreviation sendFrame := (WS.sendFrame constructorThrows).
Local Abbreviation step := (WS.step constructorThrows).
Local Abbreviation run := (WS.run constructorThrows).

(** Reduce projections of updated records, and nothing else. *)
Ltac hook_simpl :=
  cbn [isConnected isConnecting error lastMessage wsRef reconnectTimeoutRef
       reconnectAttemptsRef sockets timers nextTimer conversions sent closed
       setIsConnected setIsConnecting setError setLastMessage setWsRef
       setReconnectTimeoutRef setReconnectAttemptsRef setSockets setTimers
       setNextTimer setConversions setSent setClosed setTimeout clearTimeout
       wsClose fst snd] in *.

(** [connect] never touches the attempt counter, the pending conversions or
    what has been written. *)
Lemma connect_attempts (s : Hook) :
  reconnectAttemptsRef (connect s) = reconnectAttemptsRef s.
Proof.
  unfold WS.connect. destruct (wsOpen s); [reflexivity|].
  destruct constructorThrows; reflexivity.
Qed.

Lemma connect_conversions (s : Hook) : conversions (connect s) = conversions s.
Proof.
  unfold WS.connect. destruct (wsOpen s); [reflexivity|].
  destruct constructorThrows; reflexivity.
Qed.

Lemma connect_sent (s : Hook) : sent (connect s) = sent s.
Proof.
  unfold WS.connect. destruct (wsOpen s); [reflexivity|].
  destruct constructorThrows; reflexivity.
Qed.

(** What [onclose] schedules, by the close code and the counter. *)
Lemma onclose_retry (code : Z) (s : Hook) :
  code <> 1000 ->
  (reconnectAttemptsRef s < MAX_RECONNECT_ATTEMPTS)%nat ->
  timers (onclose code s) =
    timers s ++ [(nextTimer s,
                  RECONNECT_DELAY * 2 ^ Z.of_nat (reconnectAttemptsRef s))]
  /\ nextTimer (onclose code s) = Pos.succ (nextTimer s)
  /\ reconnectTimeoutRef (onclose code s) = Some (nextTimer s)
  /\ reconnectAttemptsRef (onclose code s) = reconnectAttemptsRef s
  /\ wsRef (onclose code s) = None
  /\ sockets (onclose code s) = sockets s.
Proof.
  intros Hc Hn. unfold onclose. hook_simpl.
  apply Z.eqb_neq in Hc. rewrite Hc.
  apply Nat.ltb_lt in Hn. rewrite Hn. cbn [negb andb]. hook_simpl.
  repeat split; reflexivity.
Qed.

Lemma onclose_no_retry (code : Z) (s : Hook) :
  code = 1000 \/ (MAX_RECONNECT_ATTEMPTS <= reconnectAttemptsRef s)%nat ->
  timers (onclose code s) = timers s
  /\ nextTimer (onclose code s) = nextTimer s
  /\ reconnectTimeoutRef (onclose code s) = reconnectTimeoutRef s
  /\ reconnectAttemptsRef (onclose code s) = reconnectAttemptsRef s
  /\ wsRef (onclose code s) = None.
Proof.
  intros H. unfold onclose. hook_simpl.
  destruct (negb (code =? 1000)
            && (reconnectAttemptsRef s <? MAX_RECONNECT_ATTEMPTS)%nat) eqn:E.
  - apply andb_true_iff in E as [E1 E2].
    apply negb_true_iff, Z.eqb_neq in E1. apply Nat.ltb_lt in E2.
    destruct H; [contradiction | lia].
  - destruct (MAX_RECONNECT_ATTEMPTS <=? reconnectAttemptsRef s)%nat;
      repeat split; reflexivity.
Qed.




Lemma connect_lastMessage (s : Hook) : lastMessage (connect s) = lastMessage s.
Proof.
  unfold WS.connect. destruct (wsOpen s); [reflexivity|].
  destruct constructorThrows; reflexivity.
Qed.

Lemma sendFrame_lastMessage (s : Hook) (seen : bool) (imageData : Blob) :
  lastMessage (sendFrame seen imageData s) = lastMessage s.
Proof.
  unfold WS.sendFrame. destruct (wsOpen s); [reflexivity|].
  destruct seen; [reflexivity | apply connect_lastMessage].
Qed.

(** Only a message that [JSON.parse] accepts replaces [lastMessage]. *)
Lemma step_lastMessage (s s' : Hook) (e : Event) :
  step s e = Some s' ->
  lastMessage s' =
  match e with
  | SockMessage _ (Decoded m) => m
  | _ => lastMessage s
  end.
Proof.
  intros H. destruct e as [| |seen img|k|k data|k|k|k code|h|i|i];
    unfold WS.step in H.
  - injection H as <-. apply connect_lastMessage.
  - injection H as <-. unfold disconnect.
    destruct (reconnectTimeoutRef s); hook_simpl;
      destruct (wsRef s); reflexivity.
  - injection H as <-. apply sendFrame_lastMessage.
  - repeat case_match; try discriminate. injection H as <-. reflexivity.
  - repeat case_match; try discriminate; injection H as <-; reflexivity.
  - repeat case_match; try discriminate; injection H as <-; reflexivity.
  - repeat case_match; try discriminate; injection H as <-; reflexivity.
  - repeat case_match; try discriminate; injection H as <-;
      unfold onclose; hook_simpl; repeat case_match; reflexivity.
  - destruct (pending h s); [|discriminate]. injection H as <-.
    unfold WS.reconnect. rewrite connect_lastMessage. reflexivity.
  - destruct (conversions s !! i); [|discriminate]. injection H as <-.
    unfold bufferReady. repeat case_match; reflexivity.
  - destruct (conversions s !! i); [|discriminate]. injection H as <-.
    reflexivity.
Qed.

(** Case analysis on one step: which handler ran, and on which branch. *)
Ltac step_inv H :=
  unfold WS.step in H; repeat case_match; try discriminate;
  injection H as <-.

Ltac handlers :=
  unfold WS.sendFrame, WS.reconnect, WS.connect, disconnect, onopen,
    onmessage, onclose, onerror, bufferReady in *.


(** C5, as the code has it: while the socket behind [wsRef] is not open,
    [sendFrame] drops the frame (no conversion is started and nothing is
    ever written for it); an instance built while [isConnecting] was true
    changes nothing at all, and any other instance calls [connect()]. *)
Theorem sendFrame_when_not_open (s : Hook) (seen : bool) (imageData : Blob) :
  wsOpen s = false ->
  conversions (sendFrame seen imageData s) = conversions s
  /\ sent (sendFrame seen imageData s) = sent s
  /\ (seen = true -> sendFrame seen imageData s = s)
  /\ (seen = false -> sendFrame seen imageData s = connect s).
Proof.
  intros Hopen. unfold WS.sendFrame. rewrite Hopen.
  destruct seen; cbn [negb].
  - repeat split; try reflexivity. discriminate.
  - rewrite connect_conversions, connect_sent.
    repeat split; try reflexivity. discriminate.
Qed.

(** C10: bytes reach a socket only in the continuation of the conversion,
    only if the socket behind [wsRef] is open at that moment, and they go
    to that socket; when it is not open the continuation only forgets the
    conversion, so the bytes are discarded. *)
Theorem send_only_on_open_socket (s s' : Hook) (e : Event) :
  step s e = Some s' ->
  (sent s' = sent s
   \/ exists (i : nat) (buffer : Blob) (id : nat),
        e = BufferReady i /\ conversions s !! i = Some buffer
        /\ wsRef s = Some id /\ sockets s !! id = Some OPEN
        /\ sent s' = sent s ++ [(id, buffer)])
  /\ (forall i : nat,
        e = BufferReady i -> wsOpen s = false ->
        s' = setConversions (delete i (conversions s)) s).
Proof.
  intros H. split.
  - destruct e as [| |seen img|k|k data|k|k|k code|h|i|i];
      try (step_inv H; handlers; hook_simpl; left; repeat case_match;
           reflexivity).
    unfold WS.step in H.
    destruct (conversions s !! i) as [buffer|] eqn:Hc; [|discriminate].
    injection H as <-. unfold bufferReady, wsOpen. hook_simpl.
    destruct (wsRef s) as [k|] eqn:Hw; [|left; reflexivity].
    destruct (sockets s !! k) as [[]|] eqn:Hs; try (left; reflexivity).
    right. exists i, buffer, k. repeat split; assumption || reflexivity.
  - intros i -> Hopen. unfold WS.step in H.
    destruct (conversions s !! i) as [buffer|] eqn:Hc; [|discriminate].
    injection H as <-. unfold bufferReady.
    replace (wsOpen (setConversions (delete i (conversions s)) s))
      with (wsOpen s) by reflexivity.
    rewrite Hopen. reflexivity.
Qed.

Lemma scheduled_base (s s' : Hook) (id : nat) (code : Z) :
  reconnectAttemptsRef s = 0%nat ->
  code <> 1000 ->
  step s (SockClose id code) = Some s' ->
  scheduled s s' = Some (nextTimer s, RECONNECT_DELAY).
Proof.
  intros Hn Hc H. step_inv H.
  all: match goal with
       | |- scheduled _ (onclose _ ?s0) = _ =>
           destruct (onclose_retry code s0 Hc) as (Ht & Hnt & _);
           [ hook_simpl; rewrite Hn; unfold MAX_RECONNECT_ATTEMPTS; lia | ];
           unfold scheduled; rewrite Hnt, Ht, last_snoc; hook_simpl;
           rewrite Hn, (proj2 (Pos.eqb_neq _ _)) by lia; reflexivity
       end.
Qed.

(** C7, as the code has it: once the counter has reached
    [MAX_RECONNECT_ATTEMPTS] a close schedules no retry; [connect()] starts
    a new attempt (connecting, error cleared, a new socket) and leaves the
    counter as it is; the counter changes only when a reconnect timer fires
    (plus one), a socket opens or [disconnect()] is called (back to 0); and
    with the counter at 0 an abnormal close schedules [RECONNECT_DELAY]
    again. *)
Theorem retries_stop_at_cap (s : Hook) :
  (MAX_RECONNECT_ATTEMPTS <= reconnectAttemptsRef s)%nat ->
  (forall (id : nat) (code : Z) (s' : Hook),
      step s (SockClose id code) = Some s' ->
      scheduled s s' = None /\ timers s' = timers s)
  /\ reconnectAttemptsRef (connect s) = reconnectAttemptsRef s
  /\ (wsOpen s = false -> constructorThrows = false ->
      isConnecting (connect s) = true /\ error (connect s) = None
      /\ wsRef (connect s) = Some (length (sockets s))
      /\ sockets (connect s) = sockets s ++ [CONNECTING])
  /\ (forall (e : Event) (s' : Hook),
        step s e = Some s' ->
        reconnectAttemptsRef s' = reconnectAttemptsRef s
        \/ ((exists h, e = TimerFire h)
            /\ reconnectAttemptsRef s' = S (reconnectAttemptsRef s))
        \/ ((e = Disconnect \/ exists id, e = SockOpen id)
            /\ reconnectAttemptsRef s' = 0%nat))
  /\ (forall (s1 s2 : Hook) (id : nat) (code : Z),
        reconnectAttemptsRef s1 = 0%nat -> code <> 1000 ->
        step s1 (SockClose id code) = Some s2 ->
        scheduled s1 s2 = Some (nextTimer s1, RECONNECT_DELAY)).
Proof.
  intros Hmax. repeat apply conj.
  - intros id code s' H. step_inv H.
    all: match goal with
         | |- scheduled _ (onclose _ ?s0) = _ /\ _ =>
             destruct (onclose_no_retry code s0 (or_intror Hmax))
               as (Ht & Hnt & _);
             unfold scheduled; rewrite Hnt, Ht; hook_simpl;
             rewrite Pos.eqb_refl; split; reflexivity
         end.
  - apply connect_attempts.
  - intros Hopen Hct. unfold WS.connect. rewrite Hopen, Hct.
    repeat split; reflexivity.
  - intros e s' H.
    destruct e as [| |seen img|k|k data|k|k|k code|h|i|i].
    + left. step_inv H. apply connect_attempts.
    + right. right. step_inv H. split; [left; reflexivity|].
      unfold disconnect. reflexivity.
    + left. step_inv H. unfold WS.sendFrame. repeat case_match;
        try reflexivity. apply connect_attempts.
    + right. right. step_inv H. split; [right; eexists; reflexivity|].
      reflexivity.
    + left. step_inv H; unfold onmessage; repeat case_match; reflexivity.
    + left. step_inv H; reflexivity.
    + left. step_inv H; reflexivity.
    + left. step_inv H; unfold onclose; hook_simpl; repeat case_match;
        reflexivity.
    + right. left. step_inv H. split; [eexists; reflexivity|].
      unfold WS.reconnect. rewrite connect_attempts. hook_simpl. lia.
    + left. step_inv H. unfold bufferReady. repeat case_match; reflexivity.
    + left. step_inv H. reflexivity.
  - intros s1 s2 id code Hn Hc H. exact (scheduled_base s1 s2 id code Hn Hc H).
Qed.

Lemma clear_recorded (h : positive) (l : list (positive * Z)) :
  Forall (fun t => Some h = Some (fst t)) l ->
  List.filter (fun t => negb (Pos.eqb (fst t) h)) l = [].
Proof.
  induction 1 as [|t l E _ IH]; [reflexivity|].
  cbn [List.filter]. injection E as <-. rewrite Pos.eqb_refl. exact IH.
Qed.

Lemma quiet_step (s s' : Hook) (e : Event) :
  timers s = [] ->
  quiet e = true ->
  step s e = Some s' ->
  timers s' = [] /\ length (sockets s') = length (sockets s).
Proof.
  intros Ht Hq H.
  destruct e as [| |seen img|k|k data|k|k|k code|h|i|i];
    cbn [quiet] in Hq; try discriminate.
  - step_inv H. unfold disconnect.
    destruct (reconnectTimeoutRef s); hook_simpl;
      destruct (wsRef s); hook_simpl; rewrite ?Ht, ?length_alter;
      split; reflexivity.
  - subst seen. step_inv H. unfold WS.sendFrame. cbn [negb].
    destruct (wsOpen s); split; assumption || reflexivity.
  - step_inv H. unfold onopen. hook_simpl.
    split; [assumption | apply length_insert].
  - step_inv H; unfold onmessage; destruct data; split;
      assumption || reflexivity.
  - step_inv H; unfold onerror; split; assumption || reflexivity.
  - step_inv H. hook_simpl. split; [assumption | apply length_insert].
  - apply Z.eqb_eq in Hq. step_inv H.
    all: match goal with
         | |- timers (onclose _ ?s0) = _ /\ _ =>
             destruct (onclose_no_retry code s0 (or_introl Hq)) as (E & _);
             rewrite E; unfold onclose; hook_simpl; split;
             [assumption | repeat case_match; hook_simpl; apply length_insert]
         end.
  - unfold WS.step, pending in H. rewrite Ht in H. discriminate.
  - step_inv H. unfold bufferReady. hook_simpl.
    repeat case_match; split; assumption || reflexivity.
  - step_inv H. split; assumption || reflexivity.
Qed.

Lemma quiet_run (es : list Event) :
  forall s s' : Hook,
    timers s = [] ->
    forallb quiet es = true ->
    run s es = Some s' ->
    timers s' = [] /\ length (sockets s') = length (sockets s).
Proof.
  induction es as [|e es IH]; intros s s' Ht Hq H.
  - injection H as <-. split; [assumption | reflexivity].
  - cbn [forallb] in Hq. apply andb_true_iff in Hq as [Hq1 Hq2].
    cbn [WS.run] in H. destruct (step s e) as [s1|] eqn:E; [|discriminate].
    destruct (quiet_step s s1 e Ht Hq1 E) as [Ht1 Hl1].
    destruct (IH s1 s' Ht1 Hq2 H) as [Ht' Hl'].
    split; [assumption | congruence].
Qed.

(** C8, as the code has it: for every value of the counter, [disconnect()]
    clears the timer recorded in [reconnectTimeoutRef], closes the socket
    behind [wsRef] with code 1000 and resets the counter; if no other timer
    was pending, none is pending afterwards, and none is scheduled and no
    socket is made for as long as [connect()] is not called, [sendFrame]
    does not reconnect, and close events carry code 1000. *)
Theorem disconnect_stops_reconnecting (s : Hook) :
  Forall (fun t => reconnectTimeoutRef s = Some (fst t)) (timers s) ->
  timers (disconnect s) = []
  /\ reconnectTimeoutRef (disconnect s) = None
  /\ wsRef (disconnect s) = None
  /\ reconnectAttemptsRef (disconnect s) = 0%nat
  /\ (forall id : nat,
        wsRef s = Some id -> closed (disconnect s) = closed s ++ [(id, 1000)])
  /\ (forall (es : list Event) (s' : Hook),
        forallb quiet es = true ->
        run (disconnect s) es = Some s' ->
        timers s' = []
        /\ length (sockets s') = length (sockets (disconnect s))).
Proof.
  intros Hone.
  assert (Ht : timers (disconnect s) = []).
  { unfold disconnect. destruct (reconnectTimeoutRef s) as [h|] eqn:Hr.
    - hook_simpl. destruct (wsRef s); hook_simpl.
      all: apply clear_recorded; exact Hone.
    - destruct (timers s) as [|t l] eqn:E.
      + destruct (wsRef s); hook_simpl; assumption.
      + apply Forall_cons in Hone as [Hd _]. discriminate. }
  repeat apply conj.
  - exact Ht.
  - unfold disconnect. destruct (reconnectTimeoutRef s) eqn:Hr;
      hook_simpl; destruct (wsRef s); hook_simpl; assumption || reflexivity.
  - unfold disconnect. destruct (reconnectTimeoutRef s);
      hook_simpl; destruct (wsRef s) eqn:Hw; hook_simpl;
      assumption || reflexivity.
  - reflexivity.
  - intros id Hw. unfold disconnect. destruct (reconnectTimeoutRef s);
      hook_simpl; rewrite Hw; reflexivity.
  - intros es s' Hq H. exact (quiet_run es _ s' Ht Hq H).
Qed.

End ConnectionManager.

(** ** The orchestrator *)

Section Orchestrator.

Import App.

Variable constructorThrows : bool.

Local Abbreviation handle := (App.handle constructorThrows).
Local Abbreviation step := (App.step constructorThrows).
Local Abbreviation run := (App.run constructorThrows).
Local Abbreviation acceptedTicks := (App.acceptedTicks constructorThrows).

Ltac app_simpl :=
  cbn [ws isStreaming videoRef isProcessing hatPose faceDetected
       frameRateLimiter recordedFrames interval capturing
       setWs setIsStreaming setIsProcessing setHatPose setFaceDetected
       setFrameRateLimiter recordFrame setInterval setCapturing
       Limiter.targetRate Limiter.lastAllowed
       seenStreaming seenConnected seenProcessing seenConnecting closureOf]
    in *.

(** The interval effect only ever writes [interval]. *)
Lemma intervalEffect_fields (s0 s : State) :
  ws (intervalEffect s0 s) = ws s
  /\ isStreaming (intervalEffect s0 s) = isStreaming s
  /\ isProcessing (intervalEffect s0 s) = isProcessing s
  /\ hatPose (intervalEffect s0 s) = hatPose s
  /\ faceDetected (intervalEffect s0 s) = faceDetected s
  /\ frameRateLimiter (intervalEffect s0 s) = frameRateLimiter s
  /\ capturing (intervalEffect s0 s) = capturing s.
Proof.
  unfold intervalEffect. repeat case_match; repeat split; reflexivity.
Qed.

(** The handlers never write [interval]. *)
Lemma handle_interval (s s' : State) (e : Event) :
  handle s e = Some s' -> interval s' = interval s.
Proof.
  intros H. unfold App.handle in H.
  destruct e as [e| | |now|i r].
  - destruct e; try discriminate;
      destruct (WS.step constructorThrows (ws s) _); try discriminate;
      try (injection H as <-; reflexivity).
    destruct data as [|m]; injection H as <-; [reflexivity|].
    unfold onLastMessage. repeat case_match; reflexivity.
  - injection H as <-. reflexivity.
  - injection H as <-. reflexivity.
  - destruct (interval s) as [c|] eqn:Hi; [|discriminate]. injection H as <-.
    unfold processVideoFrame. repeat case_match; app_simpl; exact Hi.
  - destruct (capturing s !! i); [|discriminate]. injection H as <-.
    unfold resume. destruct r; reflexivity.
Qed.

Lemma fresh_step (s s' : State) (e : Event) :
  fresh s -> step s e = Some s' -> fresh s'.
Proof.
  intros Hf H. unfold App.step in H.
  destruct (handle s e) as [s1|] eqn:E; [|discriminate].
  injection H as <-. apply handle_interval in E.
  unfold fresh, intervalEffect. intros c.
  destruct (bool_decide (isStreaming s = isStreaming s1)) eqn:D1;
    [destruct (bool_decide (WS.isConnected (ws s) = WS.isConnected (ws s1)))
       eqn:D2|]; cbn [andb].
  - apply bool_decide_eq_true in D1, D2. rewrite E. intros Hc.
    destruct (Hf c Hc) as [H1 H2]. split; congruence.
  - destruct (isStreaming s1 && WS.isConnected (ws s1)); app_simpl;
      [intros [= <-]; split; reflexivity | discriminate].
  - destruct (isStreaming s1 && WS.isConnected (ws s1)); app_simpl;
      [intros [= <-]; split; reflexivity | discriminate].
Qed.

Lemma fresh_run (es : list Event) :
  forall s s' : State, fresh s -> run s es = Some s' -> fresh s'.
Proof.
  induction es as [|e es IH]; intros s s' Hf H; cbn [App.run] in H.
  - injection H as <-. exact Hf.
  - destruct (step s e) as [s1|] eqn:E; [|discriminate].
    exact (IH s1 s' (fresh_step s s1 e Hf E) H).
Qed.

Lemma fresh_initial : fresh initial.
Proof. intros c H. discriminate. Qed.

(** What one step does to the limiter: an accepted tick records its clock
    reading, everything else leaves the limiter alone. *)
Lemma step_limiter (s s' : State) (e : Event) :
  step s e = Some s' ->
  (accepted s e = false /\ frameRateLimiter s' = frameRateLimiter s)
  \/ exists now,
       e = Tick now /\ accepted s e = true
       /\ Limiter.elapsedEnough now (frameRateLimiter s) = true
       /\ frameRateLimiter s' =
          Limiter.mkLimiter (Limiter.targetRate (frameRateLimiter s))
            (Some now).
Proof.
  intros H. unfold App.step in H.
  destruct (handle s e) as [s1|] eqn:E; [|discriminate].
  injection H as <-.
  destruct (intervalEffect_fields s s1) as (_ & _ & _ & _ & _ & -> & _).
  unfold App.handle in E.
  destruct e as [e| | |now|i r]; cbn [accepted].
  - left. split; [reflexivity|].
    destruct e; try discriminate;
      destruct (WS.step constructorThrows (ws s) _); try discriminate;
      try (injection E as <-; reflexivity).
    destruct data as [|m]; injection E as <-; [reflexivity|].
    unfold onLastMessage. repeat case_match; reflexivity.
  - left. injection E as <-. split; reflexivity.
  - left. injection E as <-. split; reflexivity.
  - destruct (interval s) as [c|] eqn:Hi; [|discriminate].
    injection E as <-. unfold processVideoFrame, accepts.
    destruct (ready c s); cbn [negb andb]; [|left; split; reflexivity].
    unfold Limiter.shouldProcessFrame.
    destruct (Limiter.elapsedEnough now (frameRateLimiter s)) eqn:El;
      cbn [negb]; app_simpl.
    + right. exists now. repeat split; assumption || reflexivity.
    + left. split; reflexivity.
  - left. destruct (capturing s !! i); [|discriminate]. injection E as <-.
    split; [reflexivity|]. unfold resume. destruct r; reflexivity.
Qed.

Lemma apart_trans (rate x y z : Z) :
  Limiter.apart rate x y -> Limiter.apart rate y z -> Limiter.apart rate x z.
Proof. unfold Limiter.apart. intros. nia. Qed.

(** The accepted ticks of a run are pairwise at least [1 / rate] apart, and
    so are they from the last tick accepted before the run. *)
Lemma acceptedTicks_apart (es : list Event) :
  forall (s : State) (rate : Z),
    Limiter.targetRate (frameRateLimiter s) = rate ->
    StronglySorted (Limiter.apart rate) (acceptedTicks s es)
    /\ forall t0, Limiter.lastAllowed (frameRateLimiter s) = Some t0 ->
                  Forall (Limiter.apart rate t0) (acceptedTicks s es).
Proof.
  induction es as [|e es IH]; intros s rate Hr; cbn [App.acceptedTicks].
  - split; [constructor | intros; constructor].
  - destruct (step s e) as [s1|] eqn:E;
      [|split; [constructor | intros; constructor]].
    destruct (step_limiter s s1 e E)
      as [[Hacc Hl] | (now & -> & Hacc & Hel & Hl)].
    + assert (Hr1 : Limiter.targetRate (frameRateLimiter s1) = rate)
        by (rewrite Hl; exact Hr).
      destruct (IH s1 rate Hr1) as [IH1 IH2].
      assert (Hsame : (match e with
                       | Tick now =>
                           if accepted s e
                           then now :: acceptedTicks s1 es
                           else acceptedTicks s1 es
                       | _ => acceptedTicks s1 es
                       end) = acceptedTicks s1 es)
        by (destruct e; try reflexivity; rewrite Hacc; reflexivity).
      rewrite Hsame. split; [exact IH1|].
      intros t0 Ht0. apply IH2. rewrite Hl. exact Ht0.
    + rewrite Hacc.
      assert (Hr1 : Limiter.targetRate (frameRateLimiter s1) = rate)
        by (rewrite Hl; exact Hr).
      destruct (IH s1 rate Hr1) as [IH1 IH2].
      assert (Hnow : Forall (Limiter.apart rate now) (acceptedTicks s1 es))
        by (apply IH2; rewrite Hl; reflexivity).
      split.
      * apply StronglySorted_cons. split; assumption.
      * intros t0 Ht0.
        assert (H0 : Limiter.apart rate t0 now).
        { unfold Limiter.elapsedEnough in Hel. rewrite Ht0, Hr in Hel.
          apply Z.leb_le in Hel. exact Hel. }
        constructor; [exact H0|].
        eapply Forall_impl; [exact Hnow|].
        intros y Hy. exact (apart_trans rate t0 now y H0 Hy).
Qed.

Lemma during_sorted (rate t : Z) (l : list Z) :
  StronglySorted (Limiter.apart rate) l ->
  StronglySorted (Limiter.apart rate) (during t l)
  /\ Forall (fun x => t <= x < t + 1000) (during t l).
Proof.
  induction 1 as [|x l Hl [IH1 IH2] Hx]; cbn [during List.filter].
  - split; constructor.
  - fold (during t l).
    destruct ((t <=? x) && (x <? t + 1000)) eqn:E; [|split; assumption].
    apply andb_true_iff in E as [E1 E2].
    apply Z.leb_le in E1. apply Z.ltb_lt in E2. split.
    + constructor; [exact IH1|].
      unfold during. apply Forall_forall. intros y Hy.
      apply list_elem_of_In, filter_In in Hy as [Hy _].
      rewrite Forall_forall in Hx. apply Hx, list_elem_of_In. exact Hy.
    + constructor; [lia | exact IH2].
Qed.

Lemma apart_count (rate hi : Z) (l : list Z) :
  0 < rate ->
  forall x : Z,
    StronglySorted (Limiter.apart rate) (x :: l) ->
    Forall (fun y => y < hi) (x :: l) ->
    Z.of_nat (length l) * 1000 <= (hi - 1 - x) * rate.
Proof.
  intros Hrate. induction l as [|y l IH]; intros x Hs Hb.
  - apply Forall_cons in Hb as [Hx _]. cbn [length]. nia.
  - apply StronglySorted_cons in Hs as [Hxy Hs].
    apply Forall_cons in Hxy as [Hxy _]. apply Forall_cons in Hb as [_ Hb].
    specialize (IH y Hs Hb). unfold Limiter.apart in Hxy.
    cbn [length]. nia.
Qed.

Lemma during_count (rate t : Z) (l : list Z) :
  0 < rate ->
  StronglySorted (Limiter.apart rate) l ->
  Z.of_nat (length (during t l)) <= rate.
Proof.
  intros Hrate Hs. destruct (during_sorted rate t l Hs) as [H1 H2].
  destruct (during t l) as [|x l'] eqn:E; [cbn [length]; lia|].
  assert (Hb : Forall (fun y => y < t + 1000) (x :: l'))
    by (eapply Forall_impl; [exact H2 | intros; cbn in *; lia]).
  pose proof (apart_count rate (t + 1000) l' Hrate x H1 Hb) as Hc.
  apply Forall_cons in H2 as [Hx _]. cbn [length]. nia.
Qed.

(** C6, as the code has it: from the start of the component, the accepted
    sample/send cycles in any one second never exceed the target rate of
    20; a cycle is accepted only at a tick for which the limiter's time has
    elapsed and while the hook reports the connection open ([isConnected])
    and the camera streams; and a tick starts at most one cycle. *)
Theorem sampling_rate_bounded (es : list Event) :
  (forall t : Z,
      Z.of_nat (length (during t (acceptedTicks initial es))) <= 20)
  /\ (forall (s : State) (e : Event),
        run initial es = Some s ->
        accepted s e = true ->
        exists now : Z,
          e = Tick now
          /\ Limiter.elapsedEnough now (frameRateLimiter s) = true
          /\ WS.isConnected (ws s) = true
          /\ isStreaming s = true)
  /\ (forall (s s' : State) (now : Z),
        run initial es = Some s ->
        step s (Tick now) = Some s' ->
        (length (capturing s') <= S (length (capturing s)))%nat).
Proof.
  repeat apply conj.
  - intros t. apply during_count; [lia|].
    apply (acceptedTicks_apart es initial 20). reflexivity.
  - intros s e Hrun Hacc.
    pose proof (fresh_run es initial s fresh_initial Hrun) as Hf.
    unfold accepted in Hacc.
    destruct e as [e| | |now|i r]; try discriminate.
    destruct (interval s) as [c|] eqn:Hi; [|discriminate].
    destruct (Hf c Hi) as [H1 H2].
    unfold accepts, ready in Hacc.
    repeat (apply andb_true_iff in Hacc as [Hacc ?]).
    exists now. repeat split; try assumption; congruence.
  - intros s s' now _ H. unfold App.step, App.handle in H.
    destruct (interval s) as [c|]; [|discriminate]. injection H as <-.
    destruct (intervalEffect_fields s (processVideoFrame c now s))
      as (_ & _ & _ & _ & _ & _ & ->).
    unfold processVideoFrame, Limiter.shouldProcessFrame.
    repeat case_match; app_simpl; rewrite ?length_app; cbn [length]; lia.
Qed.

(** C1, as the code has it: [isProcessing] is set when a tick is accepted,
    before anything is handed to [sendFrame]; it is cleared when the
    capture of an invocation settles, right after the frame (if there is
    one) has been handed to [sendFrame] and while its conversion is still
    pending; and nothing else changes it. *)
Theorem processing_flag_discipline (s s' : State) (e : Event) :
  step s e = Some s' ->
  (accepted s e = true ->
     isProcessing s' = true
     /\ WS.conversions (ws s') = WS.conversions (ws s)
     /\ WS.sent (ws s') = WS.sent (ws s))
  /\ (forall (i : nat) (r : Capture),
        e = Captured i r ->
        isProcessing s' = false
        /\ WS.sent (ws s') = WS.sent (ws s)
        /\ forall blob : Blob,
             r = Frame blob -> WS.wsOpen (ws s) = true ->
             WS.conversions (ws s') = WS.conversions (ws s) ++ [blob])
  /\ (isProcessing s' <> isProcessing s ->
      accepted s e = true \/ exists i r, e = Captured i r).
Proof.
  intros H. unfold App.step in H.
  destruct (handle s e) as [s1|] eqn:E; [|discriminate].
  injection H as <-.
  destruct (intervalEffect_fields s s1) as (-> & _ & -> & _).
  unfold App.handle in E.
  destruct e as [e| | |now|i r]; cbn [accepted].
  - assert (Hp : isProcessing s1 = isProcessing s).
    { destruct e; try discriminate;
        destruct (WS.step constructorThrows (ws s) _); try discriminate;
        try (injection E as <-; reflexivity).
      destruct data as [|m]; injection E as <-; [reflexivity|].
      unfold onLastMessage. repeat case_match; reflexivity. }
    repeat apply conj; try discriminate. intros Hne. contradiction.
  - injection E as <-. repeat apply conj; try discriminate.
    intros Hne. contradiction Hne. reflexivity.
  - injection E as <-. repeat apply conj; try discriminate.
    intros Hne. contradiction Hne. reflexivity.
  - destruct (interval s) as [c|] eqn:Hi; [|discriminate].
    injection E as <-. unfold processVideoFrame, accepts.
    destruct (ready c s); cbn [negb andb].
    + unfold Limiter.shouldProcessFrame.
      destruct (Limiter.elapsedEnough now (frameRateLimiter s));
        cbn [negb]; app_simpl; repeat apply conj; try discriminate;
        try (intros; repeat split; reflexivity); auto.
    + repeat apply conj; try discriminate.
      intros Hne. contradiction Hne. reflexivity.
  - destruct (capturing s !! i) as [c|]; [|discriminate]. injection E as <-.
    repeat apply conj; try discriminate.
    + intros i' r' [= <- <-]. unfold resume.
      destruct r as [blob| |]; app_simpl; repeat split; try reflexivity;
        try discriminate.
      * unfold WS.sendFrame. repeat case_match; try reflexivity.
        apply connect_sent.
      * intros b [= <-] Hopen. unfold WS.sendFrame. rewrite Hopen.
        reflexivity.
    + intros _. right. eauto.
Qed.

(** What one step does to the pose the scene receives: only a decoded
    message touches it, through the [lastMessage] effect. *)
Lemma step_pose (s s' : State) (e : Event) :
  step s e = Some s' ->
  match e with
  | Ws (WS.SockMessage _ (Decoded m)) =>
      WS.lastMessage (ws s') = m
      /\ faceDetected s' = faceDetected (onLastMessage m s)
      /\ hatPose s' = hatPose (onLastMessage m s)
  | _ =>
      WS.lastMessage (ws s') = WS.lastMessage (ws s)
      /\ faceDetected s' = faceDetected s
      /\ hatPose s' = hatPose s
  end.
Proof.
  intros H. unfold App.step in H.
  destruct (handle s e) as [s1|] eqn:E; [|discriminate].
  injection H as <-.
  destruct (intervalEffect_fields s s1) as (-> & _ & _ & -> & -> & _).
  unfold App.handle in E.
  destruct e as [e| | |now|i r].
  - destruct e as [| |seen img|k|k data|k|k|k code|h|j|j];
      try discriminate;
      try (destruct (WS.step constructorThrows (ws s) _) as [h1|] eqn:Eh;
           [|discriminate]; apply step_lastMessage in Eh).
    all: try (injection E as <-; app_simpl; repeat split;
              reflexivity || exact Eh).
    destruct data as [|m]; injection E as <-; app_simpl.
    + repeat split; reflexivity || exact Eh.
    + split; [|split]; unfold onLastMessage; repeat case_match; app_simpl;
        reflexivity || exact Eh.
  - injection E as <-. repeat split; reflexivity.
  - injection E as <-. repeat split; reflexivity.
  - destruct (interval s) as [c|]; [|discriminate]. injection E as <-.
    unfold processVideoFrame. repeat case_match; repeat split; reflexivity.
  - destruct (capturing s !! i) as [c|]; [|discriminate]. injection E as <-.
    unfold resume. destruct r; app_simpl; repeat split; try reflexivity.
    apply sendFrame_lastMessage.
Qed.

Lemma no_message_run (es : list Event) :
  forall s s' : State,
    forallb (fun e => negb (deliversMessage e)) es = true ->
    run s es = Some s' ->
    faceDetected s' = faceDetected s /\ hatPose s' = hatPose s.
Proof.
  induction es as [|e es IH]; intros s s' Hq H; cbn [App.run] in H.
  - injection H as <-. split; reflexivity.
  - cbn [forallb] in Hq. apply andb_true_iff in Hq as [Hq1 Hq2].
    destruct (step s e) as [s1|] eqn:E; [|discriminate].
    destruct (IH s1 s' Hq2 H) as [-> ->].
    pose proof (step_pose s s1 e E) as Hp.
    destruct e as [[| | | |k [|m]| | | | | |]| | | |];
      try discriminate; destruct Hp as (_ & -> & ->); split; reflexivity.
Qed.

Lemma follows_step (s s' : State) (e : Event) :
  follows s -> step s e = Some s' -> follows s'.
Proof.
  intros Hf H. pose proof (step_pose s s' e H) as Hp. unfold follows in *.
  destruct e as [[| | | |k [|m]| | | | | |]| | | |];
    try (destruct Hp as (-> & -> & ->); exact Hf).
  destruct Hp as (-> & -> & ->). destruct m as [|m]; [exact I|].
  unfold onLastMessage. repeat case_match; app_simpl; split; congruence.
Qed.

Lemma follows_run (es : list Event) :
  forall s s' : State, follows s -> run s es = Some s' -> follows s'.
Proof.
  induction es as [|e es IH]; intros s s' Hf H; cbn [App.run] in H.
  - injection H as <-. exact Hf.
  - destruct (step s e) as [s1|] eqn:E; [|discriminate].
    exact (IH s1 s' (follows_step s s1 e Hf E) H).
Qed.

(** X19: in every state the component reaches, the [visible] flag that the
    overlay receives ([faceDetected]) is false, and no pose is passed, as
    long as no message has arrived and whenever the latest message is an
    object that does not report a face, whatever its other fields; with the
    flag false a frame leaves the group as it is, whatever it holds. *)
Theorem hidden_without_face (es : list Event) (s : State) :
  run initial es = Some s ->
  (forallb (fun e => negb (deliversMessage e)) es = true ->
     faceDetected s = false /\ hatPose s = None)
  /\ (forall m : PoseMessage,
        WS.lastMessage (ws s) = Truthy m ->
        face_detected m <> Some true ->
        faceDetected s = false /\ hatPose s = None)
  /\ (forall (m : PoseMessage) (s0 : State),
        face_detected m <> Some true ->
        faceDetected (onLastMessage (Truthy m) s0) = false
        /\ hatPose (onLastMessage (Truthy m) s0) = None)
  /\ (forall (meshRef : option Scene.Object3D) (model : option Scene.Model)
             (gltf logs : bool),
        faceDetected s = false ->
        Scene.renderFrame s meshRef model gltf logs
        = Scene.Returned meshRef).
Proof.
  intros Hrun. repeat apply conj.
  - intros Hq. exact (no_message_run es initial s Hq Hrun).
  - intros m Hm Hface.
    assert (Hf : follows s) by (exact (follows_run es initial s I Hrun)).
    unfold follows in Hf. rewrite Hm in Hf. destruct Hf as [-> ->].
    destruct (face_detected m) as [[]|]; [contradiction| |];
      split; reflexivity.
  - intros m s0 Hface. unfold onLastMessage.
    destruct (face_detected m) as [[]|]; [contradiction| |];
      split; reflexivity.
  - intros meshRef model gltf logs Hv.
    unfold Scene.renderFrame, Scene.useFrame.
    rewrite Hv. destruct meshRef, (hatPose s); reflexivity.
Qed.


End Orchestrator.

(** ** The pose mapper *)

Section PoseMapper.

Import Scene.

Local Open Scope float_scope.

(** A number that compares with [0] is not [NaN]. *)
Lemma compared_not_nan (z : float) :
  PrimFloat.ltb 0 z = true \/ PrimFloat.leb z 0 = true -> is_nan z = false.
Proof.
  intros H. unfold is_nan. rewrite FloatAxioms.eqb_spec.
  rewrite FloatAxioms.ltb_spec, FloatAxioms.leb_spec in H.
  change (Prim2SF 0) with (S754_zero false) in H.
  unfold SFltb, SFleb, SFeqb in *.
  destruct (Prim2SF z) as [sg|sg| |sg mz ez].
  - reflexivity.
  - destruct sg; reflexivity.
  - destruct H as [H|H]; discriminate H.
  - pose proof (Pos.compare_refl mz) as Hm. unfold Pos.compare in Hm.
    destruct sg; cbn; rewrite Z.compare_refl, Hm; reflexivity.
Qed.

Lemma not_positive (z : float) :
  PrimFloat.leb z 0 = true -> PrimFloat.ltb 0 z = false.
Proof.
  rewrite FloatAxioms.ltb_spec, FloatAxioms.leb_spec.
  change (Prim2SF 0) with (S754_zero false).
  unfold SFltb, SFleb.
  destruct (Prim2SF z) as [sg|sg| |sg mz ez]; try destruct sg; cbn;
    intros H; try discriminate H; reflexivity.
Qed.

(** Every number is above [0], or at most [0], or [NaN]. *)
Lemma sign_cases (z : float) :
  PrimFloat.ltb 0 z = true \/ PrimFloat.leb z 0 = true \/ is_nan z = true.
Proof.
  unfold is_nan.
  rewrite FloatAxioms.eqb_spec, FloatAxioms.ltb_spec, FloatAxioms.leb_spec.
  change (Prim2SF 0) with (S754_zero false).
  unfold SFltb, SFleb, SFeqb.
  destruct (Prim2SF z) as [sg|sg| |sg mz ez]; try destruct sg; cbn; auto.
Qed.

(** [Math.max(z, 0)] as a case distinction on [z]. *)
Lemma Math_max0_positive (z : float) :
  PrimFloat.ltb 0 z = true -> Math_max0 z = z.
Proof.
  intros H. unfold Math_max0.
  rewrite (compared_not_nan z (or_introl H)), H. reflexivity.
Qed.

Lemma Math_max0_not_positive (z : float) :
  PrimFloat.leb z 0 = true -> Math_max0 z = 0.
Proof.
  intros H. unfold Math_max0.
  rewrite (compared_not_nan z (or_intror H)), (not_positive z H).
  reflexivity.
Qed.

Lemma Math_max0_nan (z : float) : is_nan z = true -> Math_max0 z = nan.
Proof. intros H. unfold Math_max0. rewrite H. reflexivity. Qed.

(** C4: for a message that reports a face and carries a pose of numbers, a
    frame writes the position [((x - 0.5) * 4, (y - 0.5) * 3 + offset, z')],
    the rotation of the message times 0.8 on each axis, the scale of the
    message times the multiplier, and makes the group visible, with the hat
    model as its only child.  The offset and the multiplier are those of
    the row that [modelType] selects: (-1.0, 0.8) for ['large_hat'],
    (-0.2, 0.02) for ['small_hat'] and (-0.2, 0.5) for every other or no
    name on the GLB model, and (-0.3, 0.25) on the procedural fallback.
    [z'] is [max(z, 0)]: [z] when [0 < z], [0] when [z <= 0], [NaN] when
    [z] is.  The result depends on this message alone, not on what the
    group or the component held before, nor on whether the frame logs. *)
Theorem pose_mapping (s : App.State) (m : PoseMessage) (pose : HatPose)
    (x y z a b c k : float) (group : Object3D) (model : Model)
    (gltf logs : bool) :
  face_detected m = Some true ->
  hat m = Some pose ->
  position pose = Some (mkCoords (Num x) (Num y) (Num z)) ->
  rotation pose = Some (mkCoords (Num a) (Num b) (Num c)) ->
  scale pose = Num k ->
  exists offset multiplier z' : float,
    renderFrame (App.onLastMessage (Truthy m) s) (Some group) (Some model)
      gltf logs
    = Returned (Some
        (mkObject3D
           (mkVec3 ((x - 0.5) * 4) ((y - 0.5) * 3 + offset) z')
           (mkVec3 (a * 0.8) (b * 0.8) (c * 0.8))
           (mkVec3 (k * multiplier) (k * multiplier) (k * multiplier))
           true
           [HatObject model]))
    /\ (gltf = true -> modelType pose = Some "large_hat"%string ->
        offset = (-1.0) /\ multiplier = 0.8)
    /\ (gltf = true -> modelType pose = Some "small_hat"%string ->
        offset = (-0.2) /\ multiplier = 0.02)
    /\ (gltf = true -> modelType pose <> Some "large_hat"%string ->
        modelType pose <> Some "small_hat"%string ->
        offset = (-0.2) /\ multiplier = 0.5)
    /\ (gltf = false -> offset = (-0.3) /\ multiplier = 0.25)
    /\ (PrimFloat.ltb 0 z = true -> z' = z)
    /\ (PrimFloat.leb z 0 = true -> z' = 0)
    /\ (is_nan z = true -> z' = nan)
    /\ (PrimFloat.ltb 0 z = true \/ PrimFloat.leb z 0 = true
        \/ is_nan z = true).
Proof.
  intros Hface Hhat Hp Hr Hk.
  exists (yOffset (preset gltf (modelTypeOf pose))),
    (scaleMultiplier (preset gltf (modelTypeOf pose))), (Math_max0 z).
  repeat apply conj.
  - unfold renderFrame, App.onLastMessage. rewrite Hface, Hhat.
    cbn [App.hatPose App.faceDetected App.setHatPose App.setFaceDetected
         default].
    unfold useFrame. rewrite Hp, Hr, Hk.
    cbn [cx cy cz toNumber toFixed is_Some_bool negb]. rewrite andb_false_r.
    reflexivity.
  - intros -> Ht. unfold modelTypeOf. rewrite Ht. split; reflexivity.
  - intros -> Ht. unfold modelTypeOf. rewrite Ht. split; reflexivity.
  - intros -> Hl Hs. unfold modelTypeOf, preset.
    destruct (modelType pose) as [[|ch t]|] eqn:Ht;
      try (split; reflexivity).
    destruct (String.eqb_spec (String ch t) "large_hat") as [E|_];
      [rewrite E in Hl; contradiction|].
    destruct (String.eqb_spec (String ch t) "small_hat") as [E|_];
      [rewrite E in Hs; contradiction|].
    split; reflexivity.
  - intros ->. split; reflexivity.
  - apply Math_max0_positive.
  - apply Math_max0_not_positive.
  - apply Math_max0_nan.
  - apply sign_cases.
Qed.

(** C3 fails once a face has been lost.  The example message is shown: a
    frame poses the hat and makes the group visible.  Then a message
    reports no face: the flag handed to the overlay goes to false and the
    pose is cleared, but every later frame leaves the group as it is,
    visible and holding the hat at its last pose.  Nothing in the callback
    writes [visible = false] or takes the model out of the group. *)
Theorem hat_stays_after_face_lost :
  App.run false App.initial
    [App.Ws WS.Connect; App.Ws (WS.SockOpen 0);
     App.Ws (WS.SockMessage 0 (Decoded (Truthy Runs.exampleMessage)))]
  = Some Runs.showing
  /\ (forall logs : bool,
        renderFrame Runs.showing (Some newGroup) (Some GLBHat) true logs
        = Returned (Some Runs.posed))
  /\ App.step false Runs.showing
       (App.Ws (WS.SockMessage 0 (Decoded (Truthy Runs.noFaceMessage))))
     = Some Runs.hidden
  /\ WS.lastMessage (App.ws Runs.hidden) = Truthy Runs.noFaceMessage
  /\ face_detected Runs.noFaceMessage = Some false
  /\ App.faceDetected Runs.hidden = false
  /\ App.hatPose Runs.hidden = None
  /\ (forall logs : bool,
        renderFrame Runs.hidden (Some Runs.posed) (Some GLBHat) true logs
        = Returned (Some Runs.posed))
  /\ visible Runs.posed = true
  /\ drawsHat Runs.posed = true.
Proof.
  repeat apply conj; try reflexivity; intros []; reflexivity.
Qed.

End PoseMapper.

(** ** Instances *)

Section Instances.

Import Runs.

(** The states of [Runs] are the ones their runs reach. *)
Lemma opened_reached : WS.run false WS.initial opening = Some opened.
Proof. reflexivity. Qed.

Lemma dropped_reached : WS.run false WS.initial dropping = Some dropped.
Proof. reflexivity. Qed.

Lemma exhausted_reached : WS.run false WS.initial exhausting = Some exhausted.
Proof. reflexivity. Qed.

Lemma sampling_reached : App.run false App.initial starting = Some sampling.
Proof. reflexivity. Qed.

Lemma capturing1_reached :
  App.run false App.initial (starting ++ [App.Tick 1000]) = Some capturing1.
Proof. reflexivity. Qed.

Lemma converting1_reached :
  App.run false App.initial
    (starting ++ [App.Tick 1000; App.Captured 0 (App.Frame frame1)])
  = Some converting1.
Proof. reflexivity. Qed.

(** Ticks every 50 ms are all accepted, whether or not the captures have
    settled; a tick 20 ms after an accepted one is not. *)
Lemma accepted_ticks_example :
  App.acceptedTicks false App.initial
    (starting
     ++ [App.Tick 1000; App.Tick 1020; App.Tick 1050;
         App.Captured 0 (App.Frame frame1); App.Tick 1100])
  = [1000; 1050; 1100].
Proof. reflexivity. Qed.

Lemma showing_reached :
  App.run false App.initial
    [App.Ws WS.Connect; App.Ws (WS.SockOpen 0);
     App.Ws (WS.SockMessage 0 (Decoded (Truthy exampleMessage)))]
  = Some showing.
Proof. reflexivity. Qed.



(** A frame handed over by an instance of [sendFrame] that saw
    [isConnecting] true, while the reconnect is pending: nothing happens. *)
Lemma sendFrame_when_not_open_witness :
  WS.wsOpen dropped = false
  /\ WS.sendFrame false true frame1 dropped = dropped.
Proof.
  split; [reflexivity|].
  exact (proj1 (proj2 (proj2 (sendFrame_when_not_open false dropped true
                                frame1 eq_refl))) eq_refl).
Defined.

(** C5 as stated fails: with the reconnect pending, a [sendFrame] that saw
    [isConnecting] false finds the socket not open and calls [connect()]:
    the hook is connecting again on a new socket, before the backoff delay
    has passed. *)
Lemma sendFrame_reconnects_when_closed :
  WS.run false WS.initial dropping = Some dropped
  /\ WS.wsOpen dropped = false
  /\ WS.sendFrame false false frame1 dropped <> dropped
  /\ WS.isConnecting (WS.sendFrame false false frame1 dropped) = true
  /\ WS.sockets (WS.sendFrame false false frame1 dropped)
     = [WS.CLOSED; WS.CONNECTING]
  /\ WS.wsRef (WS.sendFrame false false frame1 dropped) = Some 1%nat.
Proof.
  repeat apply conj; try reflexivity. intros H. discriminate H.
Qed.

(** The conversion of a frame settles on an open socket. *)
Lemma send_only_on_open_socket_witness :
  WS.step false (WS.sendFrame false false frame1 opened) (WS.BufferReady 0)
  = Some (WS.setSent [(0%nat, frame1)] opened)
  /\ exists (i : nat) (buffer : Blob) (id : nat),
       WS.BufferReady 0 = WS.BufferReady i
       /\ WS.conversions (WS.sendFrame false false frame1 opened) !! i
          = Some buffer
       /\ WS.wsRef (WS.sendFrame false false frame1 opened) = Some id
       /\ WS.sockets (WS.sendFrame false false frame1 opened) !! id
          = Some WS.OPEN
       /\ WS.sent (WS.setSent [(0%nat, frame1)] opened)
          = WS.sent (WS.sendFrame false false frame1 opened) ++ [(id, buffer)].
Proof.
  split; [reflexivity|].
  destruct (proj1 (send_only_on_open_socket false
                     (WS.sendFrame false false frame1 opened)
                     (WS.setSent [(0%nat, frame1)] opened)
                     (WS.BufferReady 0) eq_refl)) as [H|H].
  - discriminate H.
  - exact H.
Defined.

(** With all five attempts used up, a close schedules nothing. *)
Lemma retries_stop_at_cap_witness :
  (WS.MAX_RECONNECT_ATTEMPTS <= WS.reconnectAttemptsRef exhausted)%nat
  /\ WS.reconnectAttemptsRef (WS.connect false exhausted)
     = WS.reconnectAttemptsRef exhausted.
Proof.
  assert (H : (WS.MAX_RECONNECT_ATTEMPTS
               <= WS.reconnectAttemptsRef exhausted)%nat)
    by (apply Nat.leb_le; reflexivity).
  split; [exact H|].
  exact (proj1 (proj2 (retries_stop_at_cap false exhausted H))).
Defined.

(** C7 as stated fails: after the five attempts have failed, [connect()]
    leaves the counter at 5, and when the new socket closes abnormally no
    retry is scheduled. *)
Lemma connect_keeps_attempt_counter :
  WS.run false WS.initial exhausting = Some exhausted
  /\ WS.reconnectAttemptsRef exhausted = 5%nat
  /\ WS.reconnectAttemptsRef (WS.connect false exhausted) = 5%nat
  /\ WS.failing false (WS.connect false exhausted) [1006] = [None]
  /\ (WS.timers <$> WS.run false exhausted [WS.Connect; WS.SockClose 6 1006])
     = Some [].
Proof. repeat apply conj; reflexivity. Qed.

(** Disconnecting while the first reconnect is pending. *)
Lemma disconnect_stops_reconnecting_witness :
  Forall (fun t => WS.reconnectTimeoutRef dropped = Some (fst t))
    (WS.timers dropped)
  /\ WS.timers (WS.disconnect dropped) = [].
Proof.
  assert (H : Forall (fun t => WS.reconnectTimeoutRef dropped = Some (fst t))
                (WS.timers dropped))
    by (repeat constructor).
  split; [exact H|].
  exact (proj1 (disconnect_stops_reconnecting false dropped H)).
Defined.

(** C8 as stated fails: the user disconnects while a frame is being
    captured; when the capture settles, [sendFrame] finds no open socket and
    reconnects, and when that socket closes abnormally a reconnect is
    scheduled, although [connect()] was never requested. *)
Lemma reconnect_after_disconnect :
  (App.ws <$>
   App.run false App.initial
     (starting
      ++ [App.Tick 1000; App.Ws WS.Disconnect;
          App.Captured 0 (App.Frame frame1);
          App.Ws (WS.SockClose 1 1006)]))
  = Some (WS.mkHook false false (Some (WS.ConnectionLost 3000 1)) Falsy None
            (Some 1%positive) 0 [WS.CLOSING; WS.CLOSED]
            [(1%positive, 3000)] 2%positive [] [] [(0%nat, 1000)]).
Proof. reflexivity. Qed.

(** The first tick of the interval is accepted and sets the flag. *)
Lemma processing_flag_discipline_witness :
  App.step false sampling (App.Tick 1000) = Some capturing1
  /\ App.accepted sampling (App.Tick 1000) = true
  /\ App.isProcessing capturing1 = true
  /\ WS.conversions (App.ws capturing1) = WS.conversions (App.ws sampling)
  /\ WS.sent (App.ws capturing1) = WS.sent (App.ws sampling).
Proof.
  split; [reflexivity|]. split; [reflexivity|].
  exact (proj1 (processing_flag_discipline false sampling capturing1
                  (App.Tick 1000) eq_refl) eq_refl).
Defined.

(** C1 as stated fails: ticks 50 ms apart, each capture settling before the
    next tick, and conversions that take longer.  When the second frame is
    handed to [sendFrame] the flag is clear and the first frame is still
    being converted: two frames are held for the channel and neither has
    been written. *)
Lemma two_frames_in_flight :
  App.run false App.initial
    (starting ++ [App.Tick 1000; App.Captured 0 (App.Frame frame1)])
  = Some converting1
  /\ App.isProcessing converting1 = false
  /\ WS.conversions (App.ws converting1) = [frame1]
  /\ (WS.conversions <$>
      (App.ws <$>
       App.run false converting1
         [App.Tick 1050; App.Captured 0 (App.Frame frame2)]))
     = Some [frame1; frame2]
  /\ (WS.sent <$>
      (App.ws <$>
       App.run false converting1
         [App.Tick 1050; App.Captured 0 (App.Frame frame2)]))
     = Some [].
Proof. repeat apply conj; reflexivity. Qed.

(** C6 as stated fails: a tick is accepted while the frame of the previous
    cycle is still being converted, and a tick is accepted while the
    previous capture has not settled and [isProcessing] is true: the
    callback of the interval reads the [isProcessing] of the render that
    installed it. *)
Lemma cycle_accepted_with_frame_in_flight :
  App.run false App.initial
    (starting ++ [App.Tick 1000; App.Captured 0 (App.Frame frame1)])
  = Some converting1
  /\ WS.conversions (App.ws converting1) = [frame1]
  /\ App.accepted converting1 (App.Tick 1050) = true
  /\ App.run false App.initial (starting ++ [App.Tick 1000])
     = Some capturing1
  /\ App.isProcessing capturing1 = true
  /\ length (App.capturing capturing1) = 1%nat
  /\ App.accepted capturing1 (App.Tick 1050) = true
  /\ (length <$>
      (App.capturing <$> App.step false capturing1 (App.Tick 1050)))
     = Some 2%nat.
Proof. repeat apply conj; reflexivity. Qed.

(** Before any message, and after a message without a face. *)
Lemma hidden_without_face_witness :
  App.run false App.initial starting = Some sampling
  /\ App.faceDetected sampling = false
  /\ App.hatPose sampling = None.
Proof.
  split; [reflexivity|].
  exact (proj1 (hidden_without_face false starting sampling eq_refl) eq_refl).
Defined.



(** The example of the spec: the pose at the centre of the plane, no
    rotation, scale 1, no [modelType], on the GLB model: the default row
    and a depth above 0. *)
Lemma pose_mapping_witness :
  Scene.renderFrame
    (App.onLastMessage (Truthy exampleMessage) App.initial)
    (Some Scene.newGroup) (Some Scene.GLBHat) true false
  = Scene.Returned (Some
      (Scene.mkObject3D (mkVec3 0 (-0.2) 0.05) (mkVec3 0 0 0)
         (mkVec3 0.5 0.5 0.5) true [Scene.HatObject Scene.GLBHat])).
Proof.
  destruct (pose_mapping App.initial exampleMessage examplePose
              0.5 0.5 0.05 0 0 0 1 Scene.newGroup Scene.GLBHat true false
              eq_refl eq_refl eq_refl eq_refl eq_refl)
    as (offset & multiplier & z' & H & _ & _ & Hd & _ & Hz & _).
  destruct (Hd eq_refl ltac:(discriminate) ltac:(discriminate)) as [-> ->].
  rewrite (Hz eq_refl) in H. exact H.
Defined.

End Instances.

(** * Further properties *)

(** ** The hook along every run *)

Section HookInvariants.

Import WS Keeps.

Variable constructorThrows : bool.

Local Abbreviation connect := (WS.connect constructorThrows).
Local Abbreviation sendFrame := (WS.sendFrame constructorThrows).
Local Abbreviation step := (WS.step constructorThrows).
Local Abbreviation run := (WS.run constructorThrows).

Ltac fields :=
  cbn [isConnected isConnecting error lastMessage wsRef reconnectTimeoutRef
       reconnectAttemptsRef sockets timers nextTimer conversions sent closed
       setIsConnected setIsConnecting setError setLastMessage setWsRef
       setReconnectTimeoutRef setReconnectAttemptsRef setSockets setTimers
       setNextTimer setConversions setSent setClosed setTimeout clearTimeout
       wsClose fst snd] in *.

(** What every step keeps holds along every run. *)
Lemma run_invariant (P : Hook -> Prop) :
  (forall s e s', P s -> step s e = Some s' -> P s') ->
  forall es s s', P s -> run s es = Some s' -> P s'.
Proof.
  intros Hstep. induction es as [|e es IH]; intros s s' HP H;
    cbn [WS.run] in H.
  - injection H as <-. exact HP.
  - destruct (step s e) as [s1|] eqn:E; [|discriminate].
    exact (IH s1 s' (Hstep s e s1 HP E) H).
Qed.

Lemma wsRef_disconnect (s : Hook) : wsRef (disconnect s) = None.
Proof.
  unfold disconnect. destruct (reconnectTimeoutRef s); fields;
    destruct (wsRef s) eqn:Hw; fields; assumption || reflexivity.
Qed.

Lemma wsRef_onclose (code : Z) (s : Hook) : wsRef (onclose code s) = None.
Proof. unfold onclose. fields. repeat case_match; reflexivity. Qed.

(** X2: [disconnect()] twice is [disconnect()] once: the second call finds
    nothing to clear, nothing to close and the same flags to write. *)
Theorem disconnect_twice (s : Hook) : disconnect (disconnect s) = disconnect s.
Proof.
  unfold disconnect.
  destruct (reconnectTimeoutRef s) eqn:Hr, (wsRef s) eqn:Hw; fields;
    do 3 (rewrite ?Hr, ?Hw; fields); reflexivity.
Qed.

(** What is written or waiting to be written grows by at most one per call
    of [sendFrame], and by nothing otherwise. *)
Lemma step_conserves (s s' : Hook) (e : Event) :
  step s e = Some s' ->
  (length (sent s') + length (conversions s')
   <= length (sent s) + length (conversions s)
      + Trace.handedOver [e])%nat.
Proof.
  intros H.
  destruct e as [| |seen img|k|k data|k|k|k code|h|i|i]; unfold WS.step in H;
    cbn [Trace.handedOver List.filter length].
  - injection H as <-. rewrite connect_sent, connect_conversions. lia.
  - injection H as <-. unfold disconnect.
    destruct (reconnectTimeoutRef s); fields; destruct (wsRef s); fields; lia.
  - injection H as <-. unfold WS.sendFrame.
    destruct (wsOpen s); fields; [rewrite length_app; cbn [length]; lia|].
    destruct seen; cbn [negb];
      rewrite ?connect_sent, ?connect_conversions; lia.
  - repeat case_match; try discriminate; injection H as <-.
    unfold onopen; fields; clear; lia.
  - repeat case_match; try discriminate; injection H as <-;
      unfold onmessage; repeat case_match; fields; clear; lia.
  - repeat case_match; try discriminate; injection H as <-;
      unfold onerror; fields; clear; lia.
  - repeat case_match; try discriminate; injection H as <-; fields; clear;
      lia.
  - repeat case_match; try discriminate; injection H as <-;
      unfold onclose; fields; repeat case_match; fields; clear; lia.
  - destruct (pending h s); [|discriminate]. injection H as <-.
    unfold WS.reconnect. rewrite connect_sent, connect_conversions.
    fields. lia.
  - destruct (conversions s !! i) as [b|] eqn:Hc; [|discriminate].
    injection H as <-.
    pose proof (length_delete (conversions s) i (ex_intro _ b Hc)) as Hd.
    apply lookup_lt_Some in Hc.
    unfold bufferReady. repeat case_match; fields;
      rewrite ?length_app; cbn [length]; clear - Hd Hc; lia.
  - destruct (conversions s !! i) as [b|] eqn:Hc; [|discriminate].
    injection H as <-.
    pose proof (length_delete (conversions s) i (ex_intro _ b Hc)) as Hd.
    fields. lia.
Qed.

Lemma handedOver_cons (e : Event) (es : list Event) :
  Trace.handedOver (e :: es)
  = (Trace.handedOver [e] + Trace.handedOver es)%nat.
Proof.
  unfold Trace.handedOver. cbn [List.filter].
  destruct e; cbn [length]; lia.
Qed.

(** X1: along every run, the frames written to a socket plus the frames
    still being converted grow by at most the number of calls of
    [sendFrame]: a frame is never written twice, and nothing is written
    that was not handed over. *)
Theorem frames_written_at_most_once (es : list Event) :
  forall s s' : Hook,
    run s es = Some s' ->
    (length (sent s') + length (conversions s')
     <= length (sent s) + length (conversions s) + Trace.handedOver es)%nat.
Proof.
  induction es as [|e es IH]; intros s s' H; cbn [WS.run] in H.
  - injection H as <-. lia.
  - destruct (step s e) as [s1|] eqn:E; [|discriminate].
    pose proof (step_conserves s s1 e E). specialize (IH s1 s' H).
    rewrite handedOver_cons. lia.
Qed.

Lemma connect_error (s : Hook) :
  connect s = s \/ error (connect s) = None
  \/ error (connect s) = Some CreateFailed.
Proof.
  unfold WS.connect. destruct (wsOpen s); [left; reflexivity|].
  destruct constructorThrows; fields; auto.
Qed.

Lemma errorConsistent_connect (s : Hook) :
  errorConsistent s -> errorConsistent (connect s).
Proof.
  intros Hs. destruct (connect_error s) as [->|[E|E]]; [exact Hs| |];
    unfold errorConsistent; rewrite E; exact I.
Qed.

Lemma errorConsistent_step (s s' : Hook) (e : Event) :
  errorConsistent s -> step s e = Some s' -> errorConsistent s'.
Proof.
  intros Hs H.
  destruct e as [| |seen img|k|k data|k|k|k code|h|i|i]; unfold WS.step in H.
  - injection H as <-. apply errorConsistent_connect, Hs.
  - injection H as <-. unfold errorConsistent, disconnect. fields. exact I.
  - injection H as <-. unfold WS.sendFrame.
    destruct (wsOpen s); [exact Hs|].
    destruct seen; cbn [negb]; [exact Hs | apply errorConsistent_connect, Hs].
  - repeat case_match; try discriminate; injection H as <-. exact I.
  - repeat case_match; try discriminate; injection H as <-;
      destruct data; exact Hs.
  - repeat case_match; try discriminate; injection H as <-; exact I.
  - repeat case_match; try discriminate; injection H as <-; exact Hs.
  - assert (Hc : errorConsistent
                   (onclose code (setSockets (<[k:=CLOSED]> (sockets s)) s))).
    { unfold errorConsistent in *. unfold onclose. fields.
      destruct (negb (code =? 1000)
                && (reconnectAttemptsRef s <? MAX_RECONNECT_ATTEMPTS)%nat)
        eqn:E1; fields.
      - apply andb_true_iff in E1 as [_ E1]. apply Nat.ltb_lt in E1.
        split; [lia|]. f_equal. f_equal. f_equal. lia.
      - destruct (MAX_RECONNECT_ATTEMPTS <=? reconnectAttemptsRef s)%nat
          eqn:E2; fields; [apply Nat.leb_le, E2 | exact Hs]. }
    repeat case_match; try discriminate; injection H as <-; exact Hc.
  - destruct (pending h s); [|discriminate]. injection H as <-.
    unfold WS.reconnect.
    match goal with |- errorConsistent (WS.connect _ ?s0) => set (s1 := s0) end.
    assert (H1 : errorConsistent s1).
    { unfold errorConsistent in *. subst s1. fields.
      destruct (error s) as [[]|]; try exact I; [exact Hs | lia]. }
    apply errorConsistent_connect, H1.
  - destruct (conversions s !! i); [|discriminate]. injection H as <-.
    unfold bufferReady. repeat case_match; exact Hs.
  - destruct (conversions s !! i); [|discriminate]. injection H as <-.
    exact Hs.
Qed.

(** X3: in every state the hook reaches, a reconnect notice in [error]
    names an attempt between 1 and 5 and the delay [3000 * 2^(attempt-1)]
    of that attempt, and the notice that the backend cannot be reached
    stands only while the counter is at the cap or beyond. *)
Theorem error_text_consistent (es : list Event) (s : Hook) :
  run initial es = Some s ->
  errorConsistent s.
Proof.
  apply (run_invariant errorConsistent
           (fun s e s' => errorConsistent_step s s' e) es initial s).
  exact I.
Qed.

Lemma connect_keeps_timers (s : Hook) : timers (connect s) = timers s.
Proof.
  unfold WS.connect. destruct (wsOpen s); [reflexivity|].
  destruct constructorThrows; reflexivity.
Qed.

Lemma delaysBounded_step (s s' : Hook) (e : Event) :
  delaysBounded s -> step s e = Some s' -> delaysBounded s'.
Proof.
  intros Hs H.
  assert (Hfilter : forall h,
             delaysBounded (setTimers
               (List.filter (fun t => negb (Pos.eqb (fst t) h)) (timers s)) s)).
  { intros h. unfold delaysBounded in *. fields.
    apply Forall_forall. intros t Ht.
    apply list_elem_of_In, filter_In in Ht as [Ht _].
    rewrite Forall_forall in Hs. apply Hs, list_elem_of_In, Ht. }
  destruct e as [| |seen img|k|k data|k|k|k code|h|i|i]; unfold WS.step in H.
  - injection H as <-. unfold delaysBounded. rewrite connect_keeps_timers. exact Hs.
  - injection H as <-. unfold disconnect, delaysBounded.
    destruct (reconnectTimeoutRef s) as [h|]; fields;
      destruct (wsRef s); fields; try exact Hs; exact (Hfilter h).
  - injection H as <-. unfold WS.sendFrame, delaysBounded.
    destruct (wsOpen s); [exact Hs|].
    destruct seen; cbn [negb]; [exact Hs | rewrite connect_keeps_timers; exact Hs].
  - repeat case_match; try discriminate; injection H as <-. exact Hs.
  - repeat case_match; try discriminate; injection H as <-;
      destruct data; exact Hs.
  - repeat case_match; try discriminate; injection H as <-; exact Hs.
  - repeat case_match; try discriminate; injection H as <-; exact Hs.
  - assert (Hc : delaysBounded
                   (onclose code (setSockets (<[k:=CLOSED]> (sockets s)) s))).
    { unfold delaysBounded in *. unfold onclose. fields.
      destruct (negb (code =? 1000)
                && (reconnectAttemptsRef s <? MAX_RECONNECT_ATTEMPTS)%nat)
        eqn:E1; fields.
      - apply andb_true_iff in E1 as [_ E1]. apply Nat.ltb_lt in E1.
        apply Forall_app. split; [exact Hs|].
        constructor; [|constructor].
        exists (reconnectAttemptsRef s). split; [exact E1 | reflexivity].
      - destruct (MAX_RECONNECT_ATTEMPTS <=? reconnectAttemptsRef s)%nat;
          exact Hs. }
    repeat case_match; try discriminate; injection H as <-; exact Hc.
  - destruct (pending h s); [|discriminate]. injection H as <-.
    unfold WS.reconnect, delaysBounded. rewrite connect_keeps_timers.
    exact (Hfilter h).
  - destruct (conversions s !! i); [|discriminate]. injection H as <-.
    unfold bufferReady. repeat case_match; exact Hs.
  - destruct (conversions s !! i); [|discriminate]. injection H as <-.
    exact Hs.
Qed.

(** X4: in every state the hook reaches, every pending reconnect timer
    waits between 3000 and 48000 ms, whatever the counter has become in
    the meantime. *)
Theorem reconnect_delay_bounded (es : list Event) (s : Hook) :
  run initial es = Some s ->
  Forall (fun t => 3000 <= snd t <= 48000) (timers s).
Proof.
  intros Hrun.
  assert (Hs : delaysBounded s).
  { apply (run_invariant delaysBounded
             (fun s e s' => delaysBounded_step s s' e) es initial s);
      [constructor | exact Hrun]. }
  eapply Forall_impl; [exact Hs|]. intros t (k & Hk & ->).
  unfold MAX_RECONNECT_ATTEMPTS in Hk. unfold RECONNECT_DELAY.
  do 5 (destruct k as [|k]; [cbn; lia|]). lia.
Qed.

(** X5: along every run, [lastMessage] is the message of the last event
    that delivered decodable data, whichever socket delivered it;
    undecodable data and every other event leave it alone. *)
Theorem latest_message_wins (es : list Event) :
  forall s s' : Hook,
    run s es = Some s' ->
    lastMessage s' = Trace.latest es (lastMessage s).
Proof.
  induction es as [|e es IH]; intros s s' H; cbn [WS.run] in H.
  - injection H as <-. reflexivity.
  - destruct (step s e) as [s1|] eqn:E; [|discriminate].
    rewrite (IH s1 s' H), (step_lastMessage constructorThrows s s1 e E).
    destruct e as [| | | |k [|m]| | | | | |]; reflexivity.
Qed.

Lemma wsOpen_insert (s : Hook) (k : nat) (r : ReadyState) :
  r <> OPEN ->
  wsOpen (setSockets (<[k:=r]> (sockets s)) s) = true -> wsOpen s = true.
Proof.
  unfold wsOpen. fields. intros Hr.
  destruct (wsRef s) as [id|]; [|discriminate].
  destruct (decide (k = id)) as [->|Hne].
  - destruct (sockets s !! id) eqn:E.
    + rewrite list_lookup_insert_eq by (eapply lookup_lt_Some; exact E).
      destruct r; congruence.
    + rewrite list_insert_ge by (apply lookup_ge_None; exact E).
      rewrite E. discriminate.
  - rewrite list_lookup_insert_ne by exact Hne. tauto.
Qed.

Lemma wsOpen_connect (s : Hook) :
  wsOpen s = false -> wsOpen (connect s) = false.
Proof.
  intros E. unfold WS.connect. rewrite E.
  destruct constructorThrows; unfold wsOpen; fields.
  - fold (wsOpen s). exact E.
  - rewrite list_lookup_middle by reflexivity. reflexivity.
Qed.

Lemma openReported_connect (s : Hook) :
  openReported s -> openReported (connect s).
Proof.
  intros Hs. destruct (wsOpen s) eqn:E.
  - unfold WS.connect. rewrite E. exact Hs.
  - unfold openReported. rewrite (wsOpen_connect s E). discriminate.
Qed.

Lemma openReported_step (s s' : Hook) (e : Event) :
  openReported s -> step s e = Some s' -> openReported s'.
Proof.
  intros Hs H.
  destruct e as [| |seen img|k|k data|k|k|k code|h|i|i]; unfold WS.step in H.
  - injection H as <-. apply openReported_connect, Hs.
  - injection H as <-. unfold openReported, wsOpen.
    rewrite wsRef_disconnect. discriminate.
  - injection H as <-. unfold WS.sendFrame.
    destruct (wsOpen s) eqn:E; [exact Hs|].
    destruct seen; cbn [negb]; [exact Hs | apply openReported_connect, Hs].
  - repeat case_match; try discriminate; injection H as <-.
    intros _. split; reflexivity.
  - repeat case_match; try discriminate; injection H as <-;
      destruct data; exact Hs.
  - repeat case_match; try discriminate; injection H as <-;
      intros Ho; destruct (Hs Ho) as [Hc _]; (split; [exact Hc|reflexivity]).
  - repeat case_match; try discriminate; injection H as <-.
    intros Ho. apply wsOpen_insert in Ho; [exact (Hs Ho) | discriminate].
  - repeat case_match; try discriminate; injection H as <-;
      unfold openReported, wsOpen; rewrite wsRef_onclose; discriminate.
  - destruct (pending h s); [|discriminate]. injection H as <-.
    unfold WS.reconnect. apply openReported_connect. exact Hs.
  - destruct (conversions s !! i); [|discriminate]. injection H as <-.
    unfold bufferReady. repeat case_match; exact Hs.
  - destruct (conversions s !! i); [|discriminate]. injection H as <-.
    exact Hs.
Qed.

(** X6: in every state the hook reaches, if the socket behind [wsRef] is
    open then [isConnected] is true and [isConnecting] false: the status
    line reads Connected and the button's click disconnects, so the button
    never calls [connect()] on an open socket. *)
Theorem open_socket_shows_connected (es : list Event) (s : Hook) :
  run initial es = Some s ->
  wsOpen s = true ->
  UI.getConnectionStatus s = UI.Connected
  /\ UI.connectionButton s = Some Disconnect.
Proof.
  intros Hrun Ho.
  assert (Hs : openReported s).
  { apply (run_invariant openReported
             (fun s e s' => openReported_step s s' e) es initial s);
      [discriminate | exact Hrun]. }
  destruct (Hs Ho) as [H1 H2].
  unfold UI.getConnectionStatus, UI.connectionButton. rewrite H1, H2.
  split; reflexivity.
Qed.

(** X7: the close event of any socket clears [wsRef], also when [wsRef]
    names another socket that is open: that socket stays open but the hook
    reports disconnected and [sendFrame] no longer writes to it. *)
Theorem stale_close_orphans_open_socket (s s' : Hook) (old id : nat)
    (code : Z) :
  wsRef s = Some id ->
  sockets s !! id = Some OPEN ->
  old <> id ->
  step s (SockClose old code) = Some s' ->
  sockets s' !! id = Some OPEN
  /\ wsRef s' = None
  /\ wsOpen s' = false
  /\ isConnected s' = false
  /\ forall seen imageData,
       conversions (sendFrame seen imageData s') = conversions s'.
Proof.
  intros Hw Hid Hne H. unfold WS.step in H.
  assert (E : s' = onclose code (setSockets (<[old:=CLOSED]> (sockets s)) s))
    by (repeat case_match; try discriminate; injection H as <-; reflexivity).
  clear H. subst s'.
  set (s0 := setSockets (<[old:=CLOSED]> (sockets s)) s).
  assert (Hs : sockets (onclose code s0) = <[old:=CLOSED]> (sockets s))
    by (unfold onclose; fields; repeat case_match; reflexivity).
  assert (Hc : isConnected (onclose code s0) = false)
    by (unfold onclose; fields; repeat case_match; reflexivity).
  assert (Ho : wsOpen (onclose code s0) = false)
    by (unfold wsOpen; rewrite wsRef_onclose; reflexivity).
  repeat apply conj; try assumption.
  - rewrite Hs, list_lookup_insert_ne by exact Hne. exact Hid.
  - apply wsRef_onclose.
  - intros seen imageData. unfold WS.sendFrame. rewrite Ho.
    destruct seen; cbn [negb]; [reflexivity | apply connect_conversions].
Qed.

(** X8: [connect()] on an open socket changes nothing; called twice while
    the socket is not open (and the constructor does not throw) it makes
    two sockets, keeps the second in [wsRef] and leaves the first one
    connecting, with its handlers attached. *)
Theorem connect_twice_makes_two_sockets (s : Hook) :
  (wsOpen s = true -> connect s = s)
  /\ (wsOpen s = false -> constructorThrows = false ->
      sockets (connect (connect s)) = sockets s ++ [CONNECTING; CONNECTING]
      /\ wsRef (connect (connect s)) = Some (S (length (sockets s)))
      /\ isConnecting (connect (connect s)) = true).
Proof.
  split.
  - intros E. unfold WS.connect. rewrite E. reflexivity.
  - intros E Hct. pose proof (wsOpen_connect s E) as E1.
    assert (H : forall s0, wsOpen s0 = false ->
                sockets (connect s0) = sockets s0 ++ [CONNECTING]
                /\ wsRef (connect s0) = Some (length (sockets s0))
                /\ isConnecting (connect s0) = true).
    { intros s0 E0. unfold WS.connect. rewrite E0, Hct.
      repeat split; reflexivity. }
    destruct (H s E) as (H1 & _ & _).
    destruct (H (connect s) E1) as (H2 & H3 & H4).
    rewrite H2, H3, H4, H1, length_app, <- app_assoc. cbn [length app].
    repeat split. f_equal. lia.
Qed.

End HookInvariants.

(** ** The component along every run *)

Section ComponentInvariants.

Import App Keeps.

Variable constructorThrows : bool.

Local Abbreviation handle := (App.handle constructorThrows).
Local Abbreviation step := (App.step constructorThrows).
Local Abbreviation run := (App.run constructorThrows).
Local Abbreviation acceptedTicks := (App.acceptedTicks constructorThrows).

Ltac app_fields :=
  cbn [ws isStreaming videoRef isProcessing hatPose faceDetected
       frameRateLimiter recordedFrames interval capturing
       setWs setIsStreaming setIsProcessing setHatPose setFaceDetected
       setFrameRateLimiter recordFrame setInterval setCapturing
       Limiter.targetRate Limiter.lastAllowed
       seenStreaming seenConnected seenProcessing seenConnecting closureOf]
    in *.

Lemma app_run_invariant (P : State -> Prop) :
  (forall s e s', P s -> step s e = Some s' -> P s') ->
  forall es s s', P s -> run s es = Some s' -> P s'.
Proof.
  intros Hstep. induction es as [|e es IH]; intros s s' HP H;
    cbn [App.run] in H.
  - injection H as <-. exact HP.
  - destruct (step s e) as [s1|] eqn:E; [|discriminate].
    exact (IH s1 s' (Hstep s e s1 HP E) H).
Qed.

Lemma installed_step (s s' : State) (e : Event) :
  installed s -> step s e = Some s' -> installed s'.
Proof.
  intros Hs H. unfold App.step in H.
  destruct (handle s e) as [s1|] eqn:E; [|discriminate].
  injection H as <-.
  pose proof (handle_interval constructorThrows s s1 e E) as Hi.
  unfold installed, intervalEffect in *.
  destruct (bool_decide (isStreaming s = isStreaming s1)) eqn:D1;
    [destruct (bool_decide (WS.isConnected (ws s) = WS.isConnected (ws s1)))
       eqn:D2|]; cbn [andb].
  - apply bool_decide_eq_true in D1, D2. rewrite Hi, <- D1, <- D2. exact Hs.
  - destruct (isStreaming s1) eqn:E1, (WS.isConnected (ws s1)) eqn:E2;
      cbn [andb]; app_fields; rewrite ?E1, ?E2; split;
      try (intros [? ?]; discriminate); try (intros [? [=]]); eauto.
  - destruct (isStreaming s1) eqn:E1, (WS.isConnected (ws s1)) eqn:E2;
      cbn [andb]; app_fields; rewrite ?E1, ?E2; split;
      try (intros [? ?]; discriminate); try (intros [? [=]]); eauto.
Qed.

(** X9: in every state the component reaches, the processing interval is
    installed exactly when the camera streams and the hook reports
    connected, so a tick can fire in exactly those states: nothing is
    sampled while disconnected or while the camera is off. *)
Theorem interval_iff_streaming_and_connected (es : list Event) (s : State) :
  run initial es = Some s ->
  (is_Some (interval s)
   <-> isStreaming s = true /\ WS.isConnected (ws s) = true)
  /\ (forall now : Z,
        is_Some (step s (Tick now))
        <-> isStreaming s = true /\ WS.isConnected (ws s) = true).
Proof.
  intros Hrun.
  assert (Hs : installed s).
  { apply (app_run_invariant installed
             (fun s e s' => installed_step s s' e) es initial s);
      [|exact Hrun].
    split; [intros [c [=]] | intros [[=] _]]. }
  split; [exact Hs|]. intros now. unfold installed in Hs. rewrite <- Hs.
  unfold App.step, App.handle. destruct (interval s); split;
    intros [x Hx]; try discriminate; eauto.
Qed.

Lemma intervalEffect_recorded (s0 s : State) :
  recordedFrames (intervalEffect s0 s) = recordedFrames s.
Proof. unfold intervalEffect. repeat case_match; reflexivity. Qed.

(** What one step does to the three places a sampled frame can be in, and
    to the count of sampled frames. *)
Lemma step_frames (s s' : State) (e : Event) :
  step s e = Some s' ->
  recordedFrames s'
  = (recordedFrames s + if accepted s e then 1 else 0)%nat
  /\ (length (WS.sent (ws s')) + length (WS.conversions (ws s'))
      + length (capturing s')
      <= length (WS.sent (ws s)) + length (WS.conversions (ws s))
         + length (capturing s) + if accepted s e then 1 else 0)%nat.
Proof.
  intros H. unfold App.step in H.
  destruct (handle s e) as [s1|] eqn:E; [|discriminate].
  injection H as <-. rewrite intervalEffect_recorded.
  destruct (intervalEffect_fields s s1) as (-> & _ & _ & _ & _ & _ & ->).
  unfold App.handle in E.
  destruct e as [e| | |now|i r]; cbn [accepted].
  - assert (Hw : exists h, WS.step constructorThrows (ws s) e = Some h
                           /\ Trace.handedOver [e] = 0%nat
                           /\ ws s1 = h
                           /\ recordedFrames s1 = recordedFrames s
                           /\ capturing s1 = capturing s).
    { destruct e as [| |seen img|k|k data|k|k|k code|t|j|j];
        try discriminate;
        destruct (WS.step constructorThrows (ws s) _) as [h|];
        try discriminate; exists h;
        try (injection E as <-; repeat split; reflexivity).
      destruct data as [|m]; injection E as <-;
        [repeat split; reflexivity|].
      unfold onLastMessage. repeat case_match; repeat split; reflexivity. }
    destruct Hw as (h & Hstep & H0 & -> & -> & ->).
    pose proof (step_conserves constructorThrows (ws s) h e Hstep) as Hc.
    rewrite H0 in Hc. clear - Hc. split; lia.
  - injection E as <-. app_fields. clear. split; lia.
  - injection E as <-. app_fields. clear. split; lia.
  - destruct (interval s) as [c|] eqn:Hi; [|discriminate].
    injection E as <-. unfold processVideoFrame, accepts.
    destruct (ready c s); cbn [negb andb]; [|clear; split; lia].
    unfold Limiter.shouldProcessFrame.
    destruct (Limiter.elapsedEnough now (frameRateLimiter s));
      cbn [negb]; app_fields; rewrite ?length_app; cbn [length]; clear;
      split; lia.
  - destruct (capturing s !! i) as [c|] eqn:Hc; [|discriminate].
    injection E as <-.
    pose proof (length_delete (capturing s) i (ex_intro _ c Hc)) as Hd.
    apply lookup_lt_Some in Hc. unfold resume.
    destruct r as [blob| |]; app_fields; try (clear - Hd Hc; split; lia).
    pose proof (step_conserves constructorThrows (ws s)
                  (WS.sendFrame constructorThrows (seenConnecting c) blob
                     (ws s))
                  (WS.SendFrame (seenConnecting c) blob) eq_refl) as Hs.
    cbn in Hs. clear - Hd Hc Hs. split; lia.
Qed.

Lemma acceptedTicks_cons (s s' : State) (e : Event) (es : list Event) :
  step s e = Some s' ->
  length (acceptedTicks s (e :: es))
  = ((if accepted s e then 1 else 0) + length (acceptedTicks s' es))%nat.
Proof.
  intros H. cbn [App.acceptedTicks]. rewrite H.
  destruct e as [e| | |now|i r]; cbn [accepted]; try reflexivity.
  destruct (interval s) as [c|]; [|reflexivity].
  destruct (accepts c now s); reflexivity.
Qed.

(** X10: along every run, [recordFrame] has been called once per accepted
    tick, and the frames written, being converted or being captured grow
    by at most the number of accepted ticks: every frame on the wire is a
    distinct sampled frame. *)
Theorem sampled_frames_accounted (es : list Event) :
  forall s s' : State,
    run s es = Some s' ->
    recordedFrames s'
    = (recordedFrames s + length (acceptedTicks s es))%nat
    /\ (length (WS.sent (ws s')) + length (WS.conversions (ws s'))
        + length (capturing s')
        <= length (WS.sent (ws s)) + length (WS.conversions (ws s))
           + length (capturing s) + length (acceptedTicks s es))%nat.
Proof.
  induction es as [|e es IH]; intros s s' H; cbn [App.run] in H.
  - injection H as <-. cbn [App.acceptedTicks length]. split; lia.
  - destruct (step s e) as [s1|] eqn:E; [|discriminate].
    destruct (step_frames s s1 e E) as [H1 H2].
    destruct (IH s1 s' H) as [H3 H4].
    rewrite (acceptedTicks_cons s s1 e es E).
    clear - H1 H2 H3 H4. split; lia.
Qed.

Lemma poseWithFace_step (s s' : State) (e : Event) :
  poseWithFace s -> step s e = Some s' -> poseWithFace s'.
Proof.
  intros Hs H. pose proof (step_pose constructorThrows s s' e H) as Hp.
  unfold poseWithFace in *.
  destruct e as [[| | | |k [|m]| | | | | |]| | | |];
    try (destruct Hp as (_ & -> & ->); exact Hs).
  destruct Hp as (_ & -> & ->). unfold onLastMessage.
  destruct m as [|m]; [exact Hs|].
  destruct (face_detected m) as [[]|], (hat m); app_fields;
    try reflexivity; intros [x [=]].
Qed.

(** X11: in every state the component reaches, a pose is handed to the
    scene only together with a true face flag. *)
Theorem pose_only_with_face (es : list Event) (s : State) :
  run initial es = Some s ->
  is_Some (hatPose s) -> faceDetected s = true.
Proof.
  intros Hrun.
  apply (app_run_invariant poseWithFace
           (fun s e s' => poseWithFace_step s s' e) es initial s);
    [|exact Hrun].
  intros [x [=]].
Qed.

Lemma clearWhenIdle_step (s s' : State) (e : Event) :
  clearWhenIdle s -> step s e = Some s' -> clearWhenIdle s'.
Proof.
  intros Hs H. unfold App.step in H.
  destruct (handle s e) as [s1|] eqn:E; [|discriminate].
  injection H as <-. unfold clearWhenIdle in *.
  destruct (intervalEffect_fields s s1) as (_ & _ & -> & _ & _ & _ & ->).
  unfold App.handle in E.
  destruct e as [e| | |now|i r].
  - assert (Hw : isProcessing s1 = isProcessing s
                 /\ capturing s1 = capturing s).
    { destruct e as [| |seen img|k|k data|k|k|k code|t|j|j];
        try discriminate;
        destruct (WS.step constructorThrows (ws s) _) as [h|];
        try discriminate;
        try (injection E as <-; split; reflexivity).
      destruct data as [|m]; injection E as <-; [split; reflexivity|].
      unfold onLastMessage. repeat case_match; split; reflexivity. }
    destruct Hw as [-> ->]. exact Hs.
  - injection E as <-. exact Hs.
  - injection E as <-. exact Hs.
  - destruct (interval s) as [c|]; [|discriminate]. injection E as <-.
    unfold processVideoFrame, Limiter.shouldProcessFrame.
    destruct (ready c s); cbn [negb]; [|exact Hs].
    destruct (Limiter.elapsedEnough now (frameRateLimiter s)); cbn [negb];
      app_fields; [|exact Hs].
    intros Hnil. apply app_eq_nil in Hnil as [_ [=]].
  - destruct (capturing s !! i) as [c|]; [|discriminate]. injection E as <-.
    intros _. unfold resume. destruct r; reflexivity.
Qed.

(** X18: in every state the component reaches, [isProcessing] is false
    whenever no capture is pending: a capture that fails or yields nothing
    clears the flag like one that yields a frame, so the flag is never
    left set. *)
Theorem flag_clear_when_idle (es : list Event) (s : State) :
  run initial es = Some s ->
  capturing s = [] -> isProcessing s = false.
Proof.
  intros Hrun.
  apply (app_run_invariant clearWhenIdle
           (fun s e s' => clearWhenIdle_step s s' e) es initial s);
    [|exact Hrun].
  intros _. reflexivity.
Qed.

End ComponentInvariants.

(** ** The scene *)

Section SceneProperties.

Import Loading.

(** Once the model is built the effect does nothing more. *)
Lemma loadEffect_loaded (loaded : GLTF) (s : Loader) :
  modelLoaded s = true -> loadEffect loaded s = s.
Proof. intros H. unfold loadEffect. rewrite H. reflexivity. Qed.

Lemma renders_loaded (loaded : GLTF) (n : nat) :
  forall s, modelLoaded s = true -> renders loaded n s = s.
Proof.
  induction n as [|n IH]; intros s H; [reflexivity|].
  cbn [renders]. rewrite loadEffect_loaded by exact H. apply IH, H.
Qed.

(** X12: after two renders or more the hat model is built, once: the GLB
    clone when the loader gave a scene, the procedural fallback when it
    gave nothing, with the matching status and a single call of
    [onModelLoad]; a loaded object without a scene leaves the component
    loading for ever.  Whenever a model is built, the [isGLBModel] that
    [useFrame] computes agrees with its kind, so the presets applied are
    the ones of the model shown. *)
Theorem hat_model_built_once (loaded : GLTF) (n : nat) :
  (loaded <> WithoutScene -> (2 <= n)%nat ->
   renders loaded n initial
   = match loaded with
     | WithScene => mkLoader true true (Some Scene.GLBHat) GlbLoaded 1
     | _ => mkLoader false true (Some Scene.FallbackHat) FallbackLoaded 1
     end)
  /\ (loaded = WithoutScene -> renders loaded n initial = initial)
  /\ (forall m : Scene.Model,
        model (renders loaded n initial) = Some m ->
        isGLBModel loaded (renders loaded n initial)
        = match m with Scene.GLBHat => true | Scene.FallbackHat => false end).
Proof.
  assert (H2 : loaded <> WithoutScene -> (2 <= n)%nat ->
               renders loaded n initial
               = match loaded with
                 | WithScene =>
                     mkLoader true true (Some Scene.GLBHat) GlbLoaded 1
                 | _ => mkLoader false true (Some Scene.FallbackHat)
                          FallbackLoaded 1
                 end).
  { intros Hl Hn. destruct n as [|[|n]]; try lia.
    destruct loaded; try contradiction; cbn [renders];
      rewrite renders_loaded; reflexivity. }
  assert (H0 : loaded = WithoutScene -> renders loaded n initial = initial).
  { clear H2. intros ->. induction n as [|n IH]; [reflexivity|].
    cbn [renders]. exact IH. }
  repeat apply conj; [exact H2 | exact H0 |].
  intros m. destruct loaded.
  - destruct n as [|[|n]]; [discriminate| |].
    + cbn. discriminate.
    + rewrite H2 by (discriminate || lia). intros [= <-]. reflexivity.
  - rewrite H0 by reflexivity. discriminate.
  - destruct n as [|[|n]]; [discriminate| |].
    + cbn. intros [= <-]. reflexivity.
    + rewrite H2 by (discriminate || lia). intros [= <-]. reflexivity.
Qed.

Lemma toFixed_Some (v : Value) (x : float) :
  toFixed v = Some x <-> v = Num x.
Proof.
  destruct v; cbn [toFixed]; split; intros H; try discriminate H;
    injection H as ->; reflexivity.
Qed.

Lemma fixedCoords_Some (v : option Coords) (p : Vec3) :
  fixedCoords v = Some p
  <-> v = Some (mkCoords (Num (vx p)) (Num (vy p)) (Num (vz p))).
Proof.
  split.
  - destruct v as [[x y z]|]; [|discriminate]. cbn [fixedCoords cx cy cz].
    destruct (toFixed x) as [x'|] eqn:Ex; [|discriminate].
    destruct (toFixed y) as [y'|] eqn:Ey; [|discriminate].
    destruct (toFixed z) as [z'|] eqn:Ez; [|discriminate].
    apply toFixed_Some in Ex, Ey, Ez. intros [= <-]. subst x y z.
    reflexivity.
  - intros ->. destruct p. reflexivity.
Qed.

(** The overlay prints a pose exactly when it is well formed. *)
Lemma debugInfo_wellFormed (faceDetected : bool) (status : ModelStatus)
    (pose : HatPose) :
  debugInfo faceDetected status (Some pose) <> RenderError
  <-> wellFormed pose.
Proof.
  unfold debugInfo, wellFormed. split.
  - intros H.
    destruct (fixedCoords (position pose)) as [p|] eqn:Ep;
      [|contradiction H; reflexivity].
    destruct (fixedCoords (rotation pose)) as [r|] eqn:Er;
      [|contradiction H; reflexivity].
    destruct (toFixed (scale pose)) as [k|] eqn:Ek;
      [|contradiction H; reflexivity].
    apply fixedCoords_Some in Ep, Er. apply toFixed_Some in Ek.
    exists (vx p), (vy p), (vz p), (vx r), (vy r), (vz r), k. auto.
  - intros (x & y & z & a & b & c & k & -> & -> & ->). discriminate.
Qed.

(** X13: after the [lastMessage] effect has taken a message in, the render
    of HatScene's debug overlay throws exactly when the message reports a
    face and carries a hat that is not well formed: its position or its
    rotation is absent or [null] or lacks a coordinate that is a number, or
    its scale is not a number. *)
Theorem incomplete_hat_breaks_render (s : App.State) (m : PoseMessage)
    (status : ModelStatus) :
  debugInfo (App.faceDetected (App.onLastMessage (Truthy m) s)) status
    (App.hatPose (App.onLastMessage (Truthy m) s))
  = RenderError
  <-> face_detected m = Some true
      /\ exists pose, hat m = Some pose /\ ~ wellFormed pose.
Proof.
  unfold App.onLastMessage.
  destruct (face_detected m) as [[]|], (hat m) as [pose|];
    cbn [App.hatPose App.faceDetected App.setHatPose App.setFaceDetected
         default from_option id].
  2-6: split; [discriminate|]; intros [Hf (p & Hp & _)]; discriminate.
  split.
  - intros H. split; [reflexivity|]. exists pose. split; [reflexivity|].
    intros Hw. apply (debugInfo_wellFormed true status) in Hw.
    contradiction.
  - intros [_ (p & [= <-] & Hw)].
    destruct (debugInfo true status (Some pose)) eqn:E; [|reflexivity].
    contradiction Hw. apply (debugInfo_wellFormed true status).
    rewrite E. discriminate.
Qed.

(** X14: a pose that the debug overlay can print never makes [useFrame]
    throw, whatever the group, the model and the flag are and whether or
    not the frame logs. *)
Theorem shown_pose_is_safe_to_apply (faceDetected : bool)
    (status : ModelStatus) (hatPose : option HatPose) (info : DebugInfo)
    (meshRef : option Scene.Object3D) (model : option Scene.Model)
    (gltf logs : bool) :
  debugInfo faceDetected status hatPose = Shown info ->
  exists group,
    Scene.useFrame meshRef hatPose faceDetected model gltf logs
    = Scene.Returned group.
Proof.
  intros H. destruct hatPose as [pose|];
    [|unfold Scene.useFrame; destruct meshRef; eauto].
  assert (Hw : wellFormed pose).
  { apply (debugInfo_wellFormed faceDetected status). rewrite H.
    discriminate. }
  destruct Hw as (x & y & z & a & b & c & k & Hp & Hr & Hk).
  unfold Scene.useFrame. rewrite Hp, Hr.
  cbn [cx cy cz toFixed Scene.is_Some_bool negb]. rewrite andb_false_r.
  destruct meshRef, faceDetected, model; eauto.
Qed.

End SceneProperties.

(** ** The camera *)

Section WebcamProperties.

Import Webcam.

Lemma streamingSound_step (s : Camera) (e : Event) :
  streamingSound s -> streamingSound (step s e).
Proof.
  intros Hs. destruct e as [[e|st] played| |]; cbn [step].
  - exact Hs.
  - unfold startCamera, streamingSound in *.
    destruct (video s) eqn:Hv; cbn; rewrite ?Hv.
    + destruct played; cbn; intros _; (split; [reflexivity|]);
        exists st; repeat split; left; reflexivity.
    + intros H. destruct (Hs H) as [[=] _].
  - unfold stopCamera, streamingSound. destruct (stream s); cbn; discriminate.
  - unfold unmount, stopCamera, streamingSound. cbn. discriminate.
Qed.

(** X15: in every state the camera hook reaches by starts, stops and
    unmounting, [isStreaming] is true only while the video element is
    attached and a stream is recorded in [stream], set as its
    [srcObject], with its tracks running. *)
Theorem streaming_has_running_stream (es : list Event) (s : Camera) :
  run initial es = s ->
  isStreaming s = true ->
  video s = true
  /\ exists st,
       stream s = Some st /\ srcObject s = Some st /\ In st (running s).
Proof.
  intros <-. change (streamingSound (run initial es)).
  assert (H : forall s0, streamingSound s0 -> streamingSound (run s0 es)).
  { induction es as [|e es IH]; intros s0 H0; [exact H0|].
    apply IH, streamingSound_step, H0. }
  apply H. intros [=].
Qed.

Lemma filter_released (l : list nat) (st : nat) :
  ~ In st l ->
  List.filter (fun x => negb (Nat.eqb x st)) (st :: l) = l.
Proof.
  intros Hst. cbn [List.filter]. rewrite Nat.eqb_refl. cbn [negb].
  induction l as [|x l IH]; [reflexivity|].
  cbn [List.filter]. destruct (Nat.eqb x st) eqn:E.
  - apply Nat.eqb_eq in E. subst x. contradiction Hst. left. reflexivity.
  - cbn [negb]. f_equal. apply IH. intros H. apply Hst. right. exact H.
Qed.

(** X16: with the video element attached, a start that succeeds followed
    by the button's stop releases the stream that was acquired, leaves the
    other running streams untouched and leaves the hook idle: no stream,
    no error, not loading, not streaming, the element without a source.
    So the two are a round trip exactly from an idle hook; an error text or
    a stream that an earlier failed start had left is not restored. *)
Theorem start_then_stop_restores (s : Camera) (st : nat) :
  video s = true ->
  ~ In st (running s) ->
  run s [Start (inr st) None; Stop]
  = mkCamera None false None false true None (running s)
  /\ (run s [Start (inr st) None; Stop] = s
      <-> stream s = None /\ isLoading s = false /\ error s = None
          /\ isStreaming s = false /\ srcObject s = None).
Proof.
  intros Hv Hst.
  assert (H : run s [Start (inr st) None; Stop]
              = mkCamera None false None false true None (running s)).
  { unfold run. cbn [fold_left step]. unfold startCamera.
    cbn [video stream]. rewrite Hv. unfold stopCamera.
    cbn [stream isLoading error isStreaming video srcObject running].
    rewrite (filter_released (running s) st Hst). reflexivity. }
  split; [exact H|]. rewrite H. split.
  - intros <-. repeat split.
  - intros (H1 & H2 & H3 & H4 & H5). destruct s.
    cbn [stream isLoading error isStreaming video srcObject running] in *.
    subst. reflexivity.
Qed.

Lemma running_step (s : Camera) (e : Event) (x : nat) :
  stops e = false -> In x (running s) -> In x (running (step s e)).
Proof.
  intros He Hx. destruct e as [[e|st] played| |]; try discriminate;
    cbn [step].
  - exact Hx.
  - unfold startCamera. destruct (video s); [destruct played|]; cbn;
      right; exact Hx.
  - exact Hx.
Qed.

Lemma running_run (es : list Event) :
  forall (s : Camera) (x : nat),
    forallb (fun e => negb (stops e)) es = true ->
    In x (running s) -> In x (running (run s es)).
Proof.
  induction es as [|e es IH]; intros s x Hq Hx; [exact Hx|].
  cbn [forallb] in Hq. apply andb_true_iff in Hq as [H1 H2].
  apply negb_true_iff in H1. cbn [run fold_left].
  apply (IH (step s e) x H2), running_step; assumption.
Qed.

(** X17: only the button's stop releases a camera: along every sequence of
    starts and unmounts, every stream that [getUserMedia] handed out is
    still running at the end, whether [play()] succeeded or not; the
    cleanup on unmount stops no track. *)
Theorem unmount_never_releases_camera (es : list Event) :
  forall (s : Camera) (st : nat),
    forallb (fun e => negb (stops e)) es = true ->
    In st (acquired es) ->
    In st (running (run s es)).
Proof.
  induction es as [|e es IH]; intros s st Hq Hst; [destruct Hst|].
  cbn [forallb] in Hq. apply andb_true_iff in Hq as [H1 H2].
  cbn [run fold_left]. fold (run (step s e) es).
  destruct e as [[e|st'] played| |]; cbn [acquired] in Hst;
    try (apply IH; assumption).
  destruct Hst as [->|Hst]; [|apply IH; assumption].
  apply running_run; [exact H2|].
  cbn [step]. unfold startCamera.
  destruct (video s); [destruct played|]; cbn; left; reflexivity.
Qed.

End WebcamProperties.

(** ** Instances of the further properties *)

Section MoreInstances.

Import Runs MoreRuns.

Lemma replaced_reached : WS.run false WS.initial replacing = Some replaced.
Proof. reflexivity. Qed.

Lemma filming_reached :
  Webcam.run Webcam.initial [Webcam.Start (inr 7%nat) None] = filming.
Proof. reflexivity. Qed.

(** A frame handed over on the open socket and written. *)
Lemma frames_written_at_most_once_witness :
  WS.run false opened [WS.SendFrame false frame1; WS.BufferReady 0]
  = Some (WS.setSent [(0%nat, frame1)] opened)
  /\ (length (WS.sent (WS.setSent [(0%nat, frame1)] opened))
      + length (WS.conversions (WS.setSent [(0%nat, frame1)] opened))
      <= length (WS.sent opened) + length (WS.conversions opened)
         + Trace.handedOver [WS.SendFrame false frame1; WS.BufferReady 0])%nat.
Proof.
  split; [reflexivity|].
  exact (frames_written_at_most_once false
           [WS.SendFrame false frame1; WS.BufferReady 0] opened
           (WS.setSent [(0%nat, frame1)] opened) eq_refl).
Defined.

(** The notice after the first drop: attempt 1, 3000 ms. *)
Lemma error_text_consistent_witness :
  WS.run false WS.initial dropping = Some dropped
  /\ Keeps.errorConsistent dropped.
Proof.
  split; [reflexivity|].
  exact (error_text_consistent false dropping dropped eq_refl).
Defined.

Lemma reconnect_delay_bounded_witness :
  WS.run false WS.initial dropping = Some dropped
  /\ Forall (fun t => 3000 <= snd t <= 48000) (WS.timers dropped).
Proof.
  split; [reflexivity|].
  exact (reconnect_delay_bounded false dropping dropped eq_refl).
Defined.

(** A message, then undecodable data. *)
Lemma latest_message_wins_witness :
  WS.run false opened
    [WS.SockMessage 0 (Decoded (Truthy exampleMessage));
     WS.SockMessage 0 Undecodable]
  = Some (WS.setLastMessage (Truthy exampleMessage) opened)
  /\ WS.lastMessage (WS.setLastMessage (Truthy exampleMessage) opened)
     = Truthy exampleMessage.
Proof.
  split; [reflexivity|].
  exact (latest_message_wins false
           [WS.SockMessage 0 (Decoded (Truthy exampleMessage));
            WS.SockMessage 0 Undecodable]
           opened (WS.setLastMessage (Truthy exampleMessage) opened)
           eq_refl).
Defined.

Lemma open_socket_shows_connected_witness :
  WS.run false WS.initial opening = Some opened
  /\ WS.wsOpen opened = true
  /\ UI.getConnectionStatus opened = UI.Connected
  /\ UI.connectionButton opened = Some WS.Disconnect.
Proof.
  split; [reflexivity|]. split; [reflexivity|].
  exact (open_socket_shows_connected false opening opened eq_refl eq_refl).
Defined.

(** The first of two sockets fails after the second has opened. *)
Lemma stale_close_orphans_open_socket_witness :
  WS.step false replaced (WS.SockClose 0 1006)
  = Some (WS.onclose 1006 (WS.setSockets [WS.CLOSED; WS.OPEN] replaced))
  /\ WS.sockets (WS.onclose 1006 (WS.setSockets [WS.CLOSED; WS.OPEN] replaced))
     !! 1%nat = Some WS.OPEN
  /\ WS.wsOpen (WS.onclose 1006 (WS.setSockets [WS.CLOSED; WS.OPEN] replaced))
     = false.
Proof.
  split; [reflexivity|].
  assert (Hne : 0%nat <> 1%nat) by discriminate.
  pose proof (stale_close_orphans_open_socket false replaced _ 0%nat 1%nat
                1006 eq_refl eq_refl Hne eq_refl) as (H1 & _ & H3 & _).
  exact (conj H1 H3).
Defined.

Lemma interval_iff_streaming_and_connected_witness :
  App.run false App.initial starting = Some sampling
  /\ (is_Some (App.interval sampling)
      <-> App.isStreaming sampling = true
          /\ WS.isConnected (App.ws sampling) = true).
Proof.
  split; [reflexivity|].
  exact (proj1 (interval_iff_streaming_and_connected false starting sampling
                  eq_refl)).
Defined.

Lemma sampled_frames_accounted_witness :
  App.run false sampling [App.Tick 1000] = Some capturing1
  /\ App.recordedFrames capturing1
     = (App.recordedFrames sampling
        + length (App.acceptedTicks false sampling [App.Tick 1000]))%nat.
Proof.
  split; [reflexivity|].
  exact (proj1 (sampled_frames_accounted false [App.Tick 1000] sampling
                  capturing1 eq_refl)).
Defined.

Lemma pose_only_with_face_witness :
  is_Some (App.hatPose showing) /\ App.faceDetected showing = true.
Proof.
  assert (H : is_Some (App.hatPose showing)) by (eexists; reflexivity).
  split; [exact H|].
  exact (pose_only_with_face false _ showing showing_reached H).
Defined.

Lemma flag_clear_when_idle_witness :
  App.run false App.initial
    (starting ++ [App.Tick 1000; App.Captured 0 App.CaptureError])
  = Some (App.setFrameRateLimiter (Limiter.mkLimiter 20 (Some 1000))
            (App.recordFrame sampling))
  /\ App.isProcessing
       (App.setFrameRateLimiter (Limiter.mkLimiter 20 (Some 1000))
          (App.recordFrame sampling))
     = false.
Proof.
  split; [reflexivity|].
  exact (flag_clear_when_idle false
           (starting ++ [App.Tick 1000; App.Captured 0 App.CaptureError])
           (App.setFrameRateLimiter (Limiter.mkLimiter 20 (Some 1000))
              (App.recordFrame sampling))
           eq_refl eq_refl).
Defined.

Lemma shown_pose_is_safe_to_apply_witness :
  Loading.debugInfo true Loading.GlbLoaded (Some examplePose)
  = Loading.Shown
      (Loading.mkDebugInfo true Loading.GlbLoaded
         (Some (mkVec3 0.5 0.5 0.05, mkVec3 0 0 0, 1%float)))
  /\ exists group,
       Scene.useFrame (Some Scene.newGroup) (Some examplePose) true
         (Some Scene.GLBHat) true true
       = Scene.Returned group.
Proof.
  split; [reflexivity|].
  exact (shown_pose_is_safe_to_apply true Loading.GlbLoaded
           (Some examplePose) _ (Some Scene.newGroup) (Some Scene.GLBHat)
           true true eq_refl).
Defined.

Lemma streaming_has_running_stream_witness :
  Webcam.isStreaming filming = true
  /\ Webcam.video filming = true
  /\ exists st,
       Webcam.stream filming = Some st
       /\ Webcam.srcObject filming = Some st
       /\ In st (Webcam.running filming).
Proof.
  split; [reflexivity|].
  exact (streaming_has_running_stream [Webcam.Start (inr 7%nat) None]
           filming eq_refl eq_refl).
Defined.

(** A start after a start whose [play()] was refused: stream 3 and the
    error text are not restored, and stream 3 keeps running. *)
Lemma start_then_stop_restores_witness :
  Webcam.video refused = true
  /\ ~ In 7%nat (Webcam.running refused)
  /\ Webcam.run refused [Webcam.Start (inr 7%nat) None; Webcam.Stop]
     = Webcam.mkCamera None false None false true None [3%nat]
  /\ (Webcam.run refused [Webcam.Start (inr 7%nat) None; Webcam.Stop]
      = refused
      <-> Webcam.stream refused = None /\ Webcam.isLoading refused = false
          /\ Webcam.error refused = None
          /\ Webcam.isStreaming refused = false
          /\ Webcam.srcObject refused = None).
Proof.
  assert (H : ~ In 7%nat (Webcam.running refused))
    by (intros [H|[]]; discriminate H).
  split; [reflexivity|]. split; [exact H|].
  exact (start_then_stop_restores refused 7%nat eq_refl H).
Defined.

(** [play()] is refused and the component unmounts: the camera stays on. *)
Lemma unmount_never_releases_camera_witness :
  In 7%nat
    (Webcam.running
       (Webcam.run Webcam.initial
          [Webcam.Start (inr 7%nat)
             (Some (Webcam.DOMException "NotAllowedError" "denied"));
           Webcam.Unmount])).
Proof.
  exact (unmount_never_releases_camera
           [Webcam.Start (inr 7%nat)
              (Some (Webcam.DOMException "NotAllowedError" "denied"));
            Webcam.Unmount]
           Webcam.initial 7%nat eq_refl (or_introl eq_refl)).
Defined.

End MoreInstances.
